(** * compilationUtils: a shallow embedding of [index.js]

    The module shells out to [configure], [patch] and [make].  Its four
    exported functions are embedded as programs of a small state and error
    monad over a JavaScript-like store:

    - arrays and plain objects live in a heap and are passed by reference,
      so that aliasing between the caller's values and the values handed to
      the runner is visible;
    - the process-wide cache of [_.memoize] is a component of the state;
    - reading a file and spawning a child process leave an event in a trace;
    - what the host machine answers (platform, file system, child processes)
      is a record of oracles, fixed for the duration of one call.

    Numbers are the integers together with [Infinity], [-Infinity] and
    [NaN]; strings are sequences of code units below 256.  A JavaScript
    behaviour that falls outside this fragment (coercing an object to a
    number or a string, for instance) makes the program end in [Beyond]
    instead of guessing. *)

From Stdlib Require Import Ascii.
From stdpp Require Import gmap strings list fin_maps pretty.

Open Scope Z_scope.

(** ** Values *)

(** Numbers: the integers a double holds exactly, the two infinities and
    [NaN]. *)
Inductive number : Type :=
| NInt (z : Z)
| NInf
| NNegInf
| NNaN.

Abbreviation loc := nat.

Inductive value : Type :=
| VUndefined
| VNull
| VBool (b : bool)
| VNum (n : number)
| VStr (s : string)
| VRef (l : loc).

Inductive cell : Type :=
| CArr (xs : list value)
| CObj (kvs : gmap string value).

(** Errors a call can raise.  [JsError] is a plain [new Error(message)];
    [ExecutionError] and [SpawnError] are the two failures of the command
    runner; [JsTypeError] is what [path.join] raises on a non-string;
    [IoError] is a failed file read. *)
Inductive error : Type :=
| JsError (message : string)
| JsTypeError
| IoError (file : string)
| ExecutionError (message : string) (code : Z) (stdout stderr : string)
| SpawnError (cmd : value).

Inductive event : Type :=
| EvRead (file : string)
| EvSpawn (cmd args options : value).

Record state : Type := State {
  heap : list cell;
  memo : option value;
  trace : list event
}.

(** What a child process did. *)
Inductive proc_result : Type :=
| Exited (code : Z) (stdout stderr : string)
| NotSpawned.

(** The host: [nos.isPlatform], [nfile.exists], the lines [nfile.eachLine]
    feeds to its callback ([None] when the file cannot be read),
    [path.join] on two strings, and the behaviour of a child process given
    the store, the command, its arguments and its options. *)
Record host : Type := Host {
  isPlatform : string -> bool;
  exists_file : string -> bool;
  file_lines : string -> option (list string);
  path_join : string -> string -> string;
  child : list cell -> value -> value -> value -> proc_result
}.

(** ** The monad *)

Inductive outcome (A : Type) : Type :=
| Ret (a : A)
| Throw (e : error)
| Beyond.
Arguments Ret {A} a.
Arguments Throw {A} e.
Arguments Beyond {A}.

Definition M (A : Type) : Type := state -> outcome A * state.

Definition ret {A} (a : A) : M A := fun s => (Ret a, s).

Definition bind {A B} (m : M A) (k : A -> M B) : M B := fun s =>
  match m s with
  | (Ret a, s') => k a s'
  | (Throw e, s') => (Throw e, s')
  | (Beyond, s') => (Beyond, s')
  end.

Definition throw {A} (e : error) : M A := fun s => (Throw e, s).
Definition beyond {A} : M A := fun s => (Beyond, s).

(** A partial operation: [None] is a behaviour outside the fragment. *)
Definition lift {A} (x : option A) : M A :=
  match x with
  | Some a => ret a
  | None => beyond
  end.

#[global] Instance M_ret : MRet M := @ret.
#[global] Instance M_bind : MBind M := fun A B k m => bind m k.

(** ** Store operations *)

Definition set_heap (h : list cell) (s : state) : state :=
  State h (memo s) (trace s).
Definition set_memo (c : option value) (s : state) : state :=
  State (heap s) c (trace s).
Definition log (e : event) (s : state) : state :=
  State (heap s) (memo s) (trace s ++ [e]).

(** An array or object literal: a new cell at the end of the heap. *)
Definition alloc (c : cell) : M value := fun s =>
  (Ret (VRef (length (heap s))), set_heap (heap s ++ [c]) s).

Definition new_array (xs : list value) : M value := alloc (CArr xs).
Definition new_object (kvs : gmap string value) : M value := alloc (CObj kvs).

Definition deref (v : value) : M cell := fun s =>
  match v with
  | VRef l => match heap s !! l with
              | Some c => (Ret c, s)
              | None => (Beyond, s)
              end
  | _ => (Beyond, s)
  end.

(** [o.k] on a plain object; a missing key reads as [undefined]. *)
Definition get_prop (o : value) (k : string) : M value :=
  c ← deref o;
  match c with
  | CObj kvs => ret (default VUndefined (kvs !! k))
  | CArr _ => beyond
  end.

(** [o.k = v] on a plain object. *)
Definition set_prop (o : value) (k : string) (v : value) : M unit := fun s =>
  match o with
  | VRef l => match heap s !! l with
              | Some (CObj kvs) =>
                  (Ret tt, set_heap (<[l := CObj (<[k := v]> kvs)]> (heap s)) s)
              | _ => (Beyond, s)
              end
  | _ => (Beyond, s)
  end.

(** [a.push(v)]. *)
Definition push (a : value) (v : value) : M unit := fun s =>
  match a with
  | VRef l => match heap s !! l with
              | Some (CArr xs) =>
                  (Ret tt, set_heap (<[l := CArr (xs ++ [v])]> (heap s)) s)
              | _ => (Beyond, s)
              end
  | _ => (Beyond, s)
  end.

(** [a.concat(b)]: a new array; an array argument is spread, any other
    value is appended as one element. *)
Definition concat (a b : value) : M value :=
  ca ← deref a;
  match ca with
  | CArr xs =>
      match b with
      | VRef _ =>
          cb ← deref b;
          match cb with
          | CArr ys => new_array (xs ++ ys)
          | CObj _ => new_array (xs ++ [b])
          end
      | _ => new_array (xs ++ [b])
      end
  | CObj _ => beyond
  end.

(** ** The JavaScript operators the module uses *)

(** The condition of an [if], and the left operand of [||]. *)
Definition truthy (v : value) : bool :=
  match v with
  | VUndefined | VNull => false
  | VBool b => b
  | VNum (NInt z) => negb (z =? 0)
  | VNum NNaN => false
  | VNum _ => true
  | VStr s => negb (bool_decide (s = ""))
  | VRef _ => true
  end.

(** Sum of two numbers. *)
Definition number_add (a b : number) : number :=
  match a, b with
  | NNaN, _ | _, NNaN => NNaN
  | NInf, NNegInf | NNegInf, NInf => NNaN
  | NInf, _ | _, NInf => NInf
  | NNegInf, _ | _, NNegInf => NNegInf
  | NInt x, NInt y => NInt (x + y)
  end.

(** An integer is safe when every integer up to it is a double. *)
Definition safe (n : number) : bool :=
  match n with
  | NInt z => bool_decide (Z.abs z <= 2 ^ 53)
  | _ => true
  end.

(** [a + b]; only the sum of two numbers is in the fragment, and only when
    it is exact. *)
Definition js_plus (a b : value) : M value :=
  match a, b with
  | VNum x, VNum y =>
      if safe (number_add x y) then ret (VNum (number_add x y)) else beyond
  | _, _ => beyond
  end.

(** [ToNumber] on the primitives whose conversion needs no parsing. *)
Definition to_number (v : value) : option number :=
  match v with
  | VUndefined => Some NNaN
  | VNull => Some (NInt 0)
  | VBool b => Some (NInt (if b then 1 else 0))
  | VNum n => Some n
  | VStr _ | VRef _ => None
  end.

Definition number_min (a b : number) : number :=
  match a, b with
  | NNaN, _ | _, NNaN => NNaN
  | NNegInf, _ | _, NNegInf => NNegInf
  | NInf, y => y
  | x, NInf => x
  | NInt x, NInt y => NInt (Z.min x y)
  end.

Definition number_max (a b : number) : number :=
  match a, b with
  | NNaN, _ | _, NNaN => NNaN
  | NInf, _ | _, NInf => NInf
  | NNegInf, y => y
  | x, NNegInf => x
  | NInt x, NInt y => NInt (Z.max x y)
  end.

(** [Math.min(a, b)] and [Math.max(a, b)]. *)
Definition Math_min (a b : value) : M value :=
  x ← lift (to_number a); y ← lift (to_number b); ret (VNum (number_min x y)).
Definition Math_max (a b : value) : M value :=
  x ← lift (to_number a); y ← lift (to_number b); ret (VNum (number_max x y)).

(** The text of a number.  A safe integer is printed with all its digits;
    a larger one is printed rounded or with an exponent and is left out. *)
Definition number_to_string (n : number) : option string :=
  match n with
  | NInt z => if safe n then Some (pretty z) else None
  | NInf => Some "Infinity"
  | NNegInf => Some "-Infinity"
  | NNaN => Some "NaN"
  end.

(** [ToString] on the primitives. *)
Definition to_text (v : value) : option string :=
  match v with
  | VUndefined => Some "undefined"
  | VNull => Some "null"
  | VBool b => Some (if b then "true" else "false")
  | VNum n => number_to_string n
  | VStr s => Some s
  | VRef _ => None
  end.

(** A value inside a template literal, [`${v}`]. *)
Definition template (v : value) : M string := lift (to_text v).

(** [xs.join(sep)] on an array of strings. *)
Fixpoint join (sep : string) (xs : list string) : string :=
  match xs with
  | [] => ""
  | [x] => x
  | x :: rest => x +:+ sep +:+ join sep rest
  end.

(** [path.join(a, b)]: a [TypeError] unless both are strings. *)
Definition path_join_js (H : host) (a b : value) : M value :=
  match a, b with
  | VStr x, VStr y => ret (VStr (path_join H x y))
  | _, _ => throw JsTypeError
  end.

(** [nfile.exists(p)]. *)
Definition nfile_exists (H : host) (p : value) : bool :=
  match p with
  | VStr f => exists_file H f
  | _ => false
  end.

(** ** lodash and its nami-utils extensions *)

Definition isUndefined (v : value) : bool :=
  match v with VUndefined => true | _ => false end.

Definition isNull (v : value) : bool :=
  match v with VNull => true | _ => false end.

(** [_.isReallyObject(v)]: an object that is not an array. *)
Definition isReallyObject (v : value) : M bool :=
  match v with
  | VRef _ =>
      c ← deref v;
      match c with
      | CObj _ => ret true
      | CArr _ => ret false
      end
  | _ => ret false
  end.

(** [_.defaults]: a key takes its default when it is missing or holds
    [undefined]. *)
Definition fill (x d : option value) : option value :=
  match x, d with
  | None, _ => d
  | Some VUndefined, Some v => Some v
  | Some v, _ => Some v
  end.

Definition defaults (o d : gmap string value) : gmap string value :=
  merge fill o d.

(** [_.opts(options, defaults)]: a new object, the shallow copy of
    [options] (of [{}] when [options] is falsy) completed with the
    defaults.  [options] itself is left as it is. *)
Definition opts (options : value) (d : gmap string value) : M value :=
  match options with
  | VRef _ =>
      c ← deref options;
      match c with
      | CObj kvs => new_object (defaults kvs d)
      | CArr _ => beyond
      end
  | _ => if truthy options then beyond else new_object d
  end.

(** The characters of a string, each as a string. *)
Fixpoint chars (s : string) : list value :=
  match s with
  | EmptyString => []
  | String c rest => VStr (String c "") :: chars rest
  end.

(** [_.toArray(v)]: a copy of an array, the characters of a string, the
    empty array for [null], [undefined], a number or a boolean.  The values
    of an object come in insertion order, which the store does not keep. *)
Definition toArray (v : value) : M value :=
  match v with
  | VRef _ =>
      c ← deref v;
      match c with
      | CArr xs => new_array xs
      | CObj _ => beyond
      end
  | VStr s => new_array (chars s)
  | _ => new_array []
  end.

(** [_.find(xs, p)]: the first element that [p] accepts, or [undefined]. *)
Fixpoint find (xs : list string) (p : string -> M bool) : M value :=
  match xs with
  | [] => ret VUndefined
  | x :: rest => b ← p x; if b : bool then ret (VStr x) else find rest p
  end.

(** [_.isEmpty(v)]. *)
Definition isEmpty (v : value) : M bool :=
  match v with
  | VStr s => ret (bool_decide (s = ""))
  | VRef _ =>
      c ← deref v;
      match c with
      | CArr xs => ret (bool_decide (xs = []))
      | CObj kvs => ret (bool_decide (kvs = ∅))
      end
  | _ => ret true
  end.

(** [_.memoize(f)] for a function called without arguments: one cache
    entry, filled by the first call that returns. *)
Definition memoize (f : M value) : M value := fun s =>
  match memo s with
  | Some v => (Ret v, s)
  | None =>
      match f s with
      | (Ret v, s') => (Ret v, set_memo (Some v) s')
      | r => r
      end
  end.

(** [nfile.eachLine(file, callback)], the callback updating a counter; a
    file that cannot be read is a thrown [IoError]. *)
Definition eachLine (H : host) (file : string) (f : Z -> string -> Z)
    (init : Z) : M Z := fun s =>
  match file_lines H file with
  | Some lines => (Ret (fold_left f lines init), log (EvRead file) s)
  | None => (Throw (IoError file), log (EvRead file) s)
  end.

(** ** The command runner *)

(** Modelled from the spec: [u.logExec] of the [common-utils] package, which
    [index.js] calls and does not define.  It spawns one child process; when
    the child exits with code 0 the call returns the captured standard
    output; when it exits with another code the call raises an
    [ExecutionError] with the message [Program exited with exit code <code>]
    that carries the code and both captured streams; when the executable
    cannot be started it raises a [SpawnError].  [exit_outcome] is that
    rule, from what the child did to the outcome of the call. *)
Definition exit_outcome (cmd : value) (r : proc_result) : outcome value :=
  match r with
  | Exited code out err =>
      if bool_decide (code = 0) then Ret (VStr out)
      else Throw (ExecutionError
                    ("Program exited with exit code " +:+ pretty code)
                    code out err)
  | NotSpawned => Throw (SpawnError cmd)
  end.

(** Modelled from the spec: [u.logExec] itself, missing from [index.js]
    as said above.  It spawns the child in the store as it is, leaves the
    spawn in the trace and ends as [exit_outcome] says.  It reads its
    arguments and never writes to them.  Logging is left out. *)
Definition logExec (H : host) (cmd args options : value) : M value := fun s =>
  (exit_outcome cmd (child H (heap s) cmd args options),
   log (EvSpawn cmd args options) s).

(** ** [index.js] *)

Definition wellKnownScripts : list string := ["configure"; "config"].

(** The array [wellKnownScripts] never leaves the function and is kept as a
    list. *)
Definition _findConfigureScript (H : host) (dir : value) : M value :=
  configureScript ← find wellKnownScripts (fun script =>
    p ← path_join_js H dir (VStr script); ret (nfile_exists H p));
  e ← isEmpty configureScript;
  if e : bool then
    d ← template dir;
    throw (JsError ("Cannot find any of " +:+ join ", " wellKnownScripts
                    +:+ " under " +:+ d))
  else path_join_js H dir configureScript.

(** The first lines of [runWithinEnvironment], [configure] and [make],
<<
  if (_.isUndefined(options) && _.isReallyObject(args)) {
    options = args;
    args = [];
  }
>>
    returning the two rebound parameters. *)
Definition args_or_options (args options : value) : M (value * value) :=
  b ← (if isUndefined options then isReallyObject args else ret false);
  if b : bool then a ← new_array []; ret (a, args)
  else ret (args, options).

(** [runWithinEnvironment] after its first lines. *)
Definition run_resolved (H : host) (cwd cmd args options : value)
    : M value :=
  env ← new_object ∅;
  options ← opts options
    {[ "cwd" := cwd; "env" := env; "logger" := VNull ]};
  args ← (if isNull args || isUndefined args then new_array []
          else ret args);
  logExec H cmd args options.

Definition runWithinEnvironment (H : host) (cwd cmd args options : value)
    : M value :=
  '(args, options) ← args_or_options args options;
  run_resolved H cwd cmd args options.

(** [configure] after its first lines. *)
Definition configure_resolved (H : host) (cwd args options : value)
    : M value :=
  configureScript ← _findConfigureScript H cwd;
  runWithinEnvironment H cwd configureScript args options.

Definition configure (H : host) (cwd args options : value) : M value :=
  '(args, options) ← args_or_options args options;
  configure_resolved H cwd args options.

Definition patch (H : host) (cwd patchFile options : value) : M value :=
  options ← opts options {[ "patchLevel" := VNum (NInt 0) ]};
  patchLevel ← get_prop options "patchLevel";
  p ← template patchLevel;
  a ← new_array [VStr ("-p" +:+ p); VStr "-i"; patchFile];
  runWithinEnvironment H cwd (VStr "patch") a options.

(** The characters of [\s] below 256: tab to carriage return, space and
    the no-break space. *)
Definition is_space (c : Ascii.ascii) : bool :=
  let n := Ascii.N_of_ascii c in
  ((9 <=? n) && (n <=? 13) || (n =? 32) || (n =? 160))%N.

(** The rest of a line after the first blank of [\s+:]. *)
Fixpoint blanks_then_colon (s : string) : bool :=
  match s with
  | EmptyString => false
  | String c rest =>
      if bool_decide (c = ":"%char) then true
      else if is_space c then blanks_then_colon rest
      else false
  end.

(** [s] without its prefix [p]. *)
Fixpoint strip_prefix (p s : string) : option string :=
  match p, s with
  | EmptyString, _ => Some s
  | String a p', String b s' =>
      if bool_decide (a = b) then strip_prefix p' s' else None
  | String _ _, EmptyString => None
  end.

(** [line.match(/^processor\s+:/)] as a condition. *)
Definition processor_line (line : string) : bool :=
  match strip_prefix "processor" line with
  | Some (String c rest) => is_space c && blanks_then_colon rest
  | _ => false
  end.

(** The function [_machineInformation] memoizes. *)
Definition machineInformation_body (H : host) : M value :=
  info ← new_object {[ "cores" := VNum (NInt 2) ]};
  (if isPlatform H "linux" then
     cores ← eachLine H "/proc/cpuinfo"
       (fun cores line => if processor_line line then cores + 1 else cores) 0;
     c ← get_prop info "cores";
     m ← Math_max (VNum (NInt cores)) c;
     set_prop info "cores" m
   else ret tt);;
  ret info.

Definition _machineInformation (H : host) : M value :=
  memoize (machineInformation_body H).

(** The [i]-th parameter of a call made with [arguments]. *)
Definition param (i : nat) (arguments : list value) : value :=
  default VUndefined (arguments !! i).

(** [make] after its first lines; [arguments_length] is
    [arguments.length]. *)
Definition make_resolved (H : host) (arguments_length : nat)
    (cwd args options : value) : M value :=
  options ← opts options
    {[ "supportsParallelBuild" := VBool true; "maxParallelJobs" := VNum NInf ]};
  makeArgs ← new_array [];
  supportsParallelBuild ← get_prop options "supportsParallelBuild";
  (if truthy supportsParallelBuild then
     info ← _machineInformation H;
     cores ← get_prop info "cores";
     n ← js_plus cores (VNum (NInt 1));
     maxParallelJobs ← get_prop options "maxParallelJobs";
     j ← Math_min n maxParallelJobs;
     flag ← template j;
     push makeArgs (VStr ("--jobs=" +:+ flag))
   else ret tt);;
  makeArgs ← (if bool_decide (0 < arguments_length)%nat then
                a ← toArray args; concat makeArgs a
              else ret makeArgs);
  runWithinEnvironment H cwd (VStr "make") makeArgs options.

(** [make] reads [arguments.length], so it takes the list of the values it
    was called with; a parameter past its end is [undefined]. *)
Definition make (H : host) (arguments : list value) : M value :=
  let cwd := param 0 arguments in
  let args := param 1 arguments in
  let options := param 2 arguments in
  '(args, options) ← args_or_options args options;
  make_resolved H (length arguments) cwd args options.

(** ** Reading a call off the store

    Pure views of the store, used to say what a call was given. *)

Definition is_object (h : list cell) (v : value) : bool :=
  match v with
  | VRef l => match h !! l with
              | Some (CObj _) => true
              | _ => false
              end
  | _ => false
  end.

(** A reference points into the store. *)
Definition valid (h : list cell) (v : value) : bool :=
  match v with
  | VRef l => bool_decide (l < length h)%nat
  | _ => true
  end.

(** A string or an array. *)
Definition is_text_or_array (h : list cell) (v : value) : bool :=
  match v with
  | VStr _ => true
  | VRef l => match h !! l with
              | Some (CArr _) => true
              | _ => false
              end
  | _ => false
  end.

(** [null] or [undefined]. *)
Definition nullish (v : value) : bool := isNull v || isUndefined v.

(** [options || {}] is a plain object. *)
Definition usable (h : list cell) (options : value) : bool :=
  match options with
  | VRef _ => is_object h options
  | _ => negb (truthy options)
  end.

(** The keys of [options || {}]. *)
Definition settings (h : list cell) (options : value) : gmap string value :=
  match options with
  | VRef l => match h !! l with
              | Some (CObj kvs) => kvs
              | _ => ∅
              end
  | _ => ∅
  end.

(** [options.k] when it is given, [d] otherwise. *)
Definition setting (h : list cell) (options : value) (k : string)
    (d : value) : value :=
  match settings h options !! k with
  | Some VUndefined | None => d
  | Some v => v
  end.

(** The elements [_.toArray] finds in a value. *)
Definition items_of (h : list cell) (v : value) : list value :=
  match v with
  | VRef l => match h !! l with
              | Some (CArr xs) => xs
              | _ => []
              end
  | VStr s => chars s
  | _ => []
  end.

(** The condition of the first lines of the three functions. *)
Definition reinterprets (h : list cell) (args options : value) : bool :=
  isUndefined options && is_object h args.

(** The value used as options, and the elements used as arguments. *)
Definition options_of (h : list cell) (args options : value) : value :=
  if reinterprets h args options then args else options.

Definition given_items (h : list cell) (args options : value) : list value :=
  if reinterprets h args options then [] else items_of h args.

(** What [runWithinEnvironment] passes on as arguments: [Some v] when it is
    the value [v] it was given, [None] when it is a new empty array. *)
Definition kept_args (h : list cell) (args options : value) : option value :=
  if reinterprets h args options then None
  else if nullish args then None
  else Some args.

(** The options object [runWithinEnvironment] hands to the runner. *)
Definition runner_options (h : list cell) (cwd options : value) : cell :=
  CObj (defaults (settings h options)
          {[ "cwd" := cwd; "env" := VRef (length h); "logger" := VNull ]}).

(** The configure script in the words of the specification: the first
    name that exists under [dir], looking for [configure] and then for
    [config]. *)
Definition first_existing (H : host) (dir : string) : option string :=
  if exists_file H (path_join H dir "configure") then Some "configure"
  else if exists_file H (path_join H dir "config") then Some "config"
  else None.

(** ** Host information *)

(** A string of [\s] characters. *)
Fixpoint all_spaces (s : string) : bool :=
  match s with
  | EmptyString => true
  | String c rest => is_space c && all_spaces rest
  end.

(** The core count held by the cache of [_machineInformation]. *)
Definition cached_cores (s : state) : option number :=
  match memo s with
  | Some (VRef l) =>
      match heap s !! l with
      | Some (CObj kvs) =>
          match kvs !! "cores" with
          | Some (VNum n) => Some n
          | _ => None
          end
      | _ => None
      end
  | _ => None
  end.

(** The cache is empty or holds an object whose core count is an integer
    of at least 2. *)
Definition memo_ok (s : state) : Prop :=
  memo s = None ∨ ∃ c, cached_cores s = Some (NInt c) ∧ 2 <= c.

(** Core-count detection in the words of the specification: on a Linux
    host the number of lines of the CPU information file that match the
    processor pattern, 2 on any other host, and never less than 2.  [None]
    when the file cannot be read. *)
Definition matching_lines (lines : list string) : Z :=
  Z.of_nat (length (filter (fun l => processor_line l = true) lines)).

Definition core_count (H : host) : option Z :=
  if isPlatform H "linux" then
    (fun lines => Z.max (matching_lines lines) 2)
      <$> file_lines H "/proc/cpuinfo"
  else Some 2.

(** The reads of one detection. *)
Definition detection_reads (H : host) : list event :=
  if isPlatform H "linux" then [EvRead "/proc/cpuinfo"] else [].

(** The host can be asked for its core count: it is not Linux, or its CPU
    information file can be read. *)
Definition readable (H : host) : bool :=
  match core_count H with
  | Some _ => true
  | None => false
  end.

(** The text of the jobs flag in the words of the specification:
    [min(coreCount + 1, maxParallelJobs)]. *)
Definition job_count (cores : number) (maxParallelJobs : value)
    : option string :=
  match to_number maxParallelJobs with
  | Some n => number_to_string (number_min (number_add cores (NInt 1)) n)
  | None => None
  end.

(** ** Calls and processes *)

(** A call of one of the four exported functions. *)
Inductive call : Type :=
| CallRun (cwd cmd args options : value)
| CallConfigure (cwd args options : value)
| CallPatch (cwd patchFile options : value)
| CallMake (arguments : list value).

Definition exec (H : host) (c : call) : M value :=
  match c with
  | CallRun cwd cmd args options => runWithinEnvironment H cwd cmd args options
  | CallConfigure cwd args options => configure H cwd args options
  | CallPatch cwd patchFile options => patch H cwd patchFile options
  | CallMake arguments => make H arguments
  end.

(** The rest of a process: calls made one after the other, each on the
    host as it is at that time, whatever their outcomes. *)
Fixpoint run_calls (cs : list (host * call)) (s : state) : state :=
  match cs with
  | [] => s
  | (H, c) :: rest => run_calls rest (exec H c s).2
  end.

Definition all_readable (cs : list (host * call)) : bool :=
  forallb (fun hc => readable hc.1) cs.

(** The value a call was given as [args], and the environment it was
    given: the [env] key of the value used as options. *)
Definition call_args (c : call) : value :=
  match c with
  | CallRun _ _ args _ | CallConfigure _ args _ => args
  | CallPatch _ _ _ => VUndefined
  | CallMake arguments => param 1 arguments
  end.

Definition call_env (h : list cell) (c : call) : value :=
  match c with
  | CallRun _ _ args options | CallConfigure _ args options =>
      setting h (options_of h args options) "env" VUndefined
  | CallPatch _ _ options => setting h options "env" VUndefined
  | CallMake arguments =>
      setting h (options_of h (param 1 arguments) (param 2 arguments))
        "env" VUndefined
  end.

(** ** What a call leaves in the trace *)

Definition is_spawn (e : event) : bool :=
  match e with EvSpawn _ _ _ => true | EvRead _ => false end.

(** The call started a child process, as its last action. *)
Definition spawned (s s' : state) (cmd a op : value) : Prop :=
  ∃ pre, trace s' = trace s ++ pre ++ [EvSpawn cmd a op]
         ∧ forallb (fun e => negb (is_spawn e)) pre = true.

(** The call started no child process. *)
Definition no_spawn (s s' : state) : Prop :=
  ∃ pre, trace s' = trace s ++ pre
         ∧ forallb (fun e => negb (is_spawn e)) pre = true.

(** An outcome that does not come from the runner. *)
Definition early (o : outcome value) : Prop :=
  match o with
  | Ret _ => False
  | Throw (ExecutionError _ _ _ _) | Throw (SpawnError _) => False
  | Throw _ => True
  | Beyond => True
  end.

(** How often the trace reads the CPU information file. *)
Definition is_cpuinfo_read (e : event) : bool :=
  match e with
  | EvRead file => bool_decide (file = "/proc/cpuinfo")
  | EvSpawn _ _ _ => false
  end.

Definition cpuinfo_reads (tr : list event) : nat :=
  length (filter (fun e => is_cpuinfo_read e = true) tr).

(** ** Contracts *)

(** [wp m Q s]: running [m] from [s] ends in an outcome and a state that
    satisfy [Q]. *)
Definition wp {A} (m : M A) (Q : outcome A -> state -> Prop) (s : state)
    : Prop :=
  Q (m s).1 (m s).2.

(** Contract of the command runner and of the functions that end in it,
    between the state [s] before the call and the outcome [o] and state [s']
    after it. *)
Definition runner_rule (H : host) (s : state) (o : outcome value)
    (s' : state) : Prop :=
  (no_spawn s s' ∧ early o)
  ∨ ∃ cmd a op, spawned s s' cmd a op
                ∧ o = exit_outcome cmd (child H (heap s') cmd a op).

(** The cache after a call that started from [s]: as it was, or filled by
    this call with a new object that holds the detected core count. *)
Definition cache_rule (H : host) (s s' : state) : Prop :=
  memo s' = memo s
  ∨ (memo s = None
     ∧ ∃ c l, core_count H = Some c
              ∧ memo s' = Some (VRef l)
              ∧ heap s' !! l = Some (CObj {[ "cores" := VNum (NInt c) ]})
              ∧ (length (heap s) <= l)%nat).

(** The reads of a call: none, or those of the one detection it ran with
    an empty cache, which failed on an unreadable file or filled the
    cache. *)
Definition reads_rule (H : host) (s s' : state) (reads : list event)
    : Prop :=
  reads = []
  ∨ (memo s = None ∧ reads = detection_reads H
     ∧ (core_count H = None ∨ memo s' <> None)).

(** What one call of the module does to the state, and how its outcome
    comes about: stored arrays and objects are kept, the cache follows
    [cache_rule], the trace grows by the reads of at most one detection, then
    by at most one spawn; the outcome is the runner's exactly when a child
    was spawned.  [P] says more about the spawn. *)
Definition call_post (H : host) (P : value -> value -> value -> state -> Prop)
    (s : state) (o : outcome value) (s' : state) : Prop :=
  heap s `prefix_of` heap s'
  ∧ cache_rule H s s'
  ∧ ∃ reads tail,
      trace s' = trace s ++ reads ++ tail
      ∧ reads_rule H s s' reads
      ∧ ((tail = [] ∧ early o)
         ∨ ∃ cmd a op,
             tail = [EvSpawn cmd a op]
             ∧ o = exit_outcome cmd (child H (heap s') cmd a op)
             ∧ P cmd a op s').

(** The spawn of [runWithinEnvironment]. *)
Definition run_spawn (cmd : value) (kept : option value) (s : state)
    (c a op : value) (s' : state) : Prop :=
  c = cmd
  ∧ match kept with
    | Some v => a = v
    | None => ∃ l, a = VRef l ∧ heap s' !! l = Some (CArr [])
                   ∧ (length (heap s) <= l)%nat
    end.

(** The argument list [make] hands to the runner, for a call whose
    options are [options] in the store [h] and whose arguments hold the
    elements [given]: the array [a] in the store of [s'] holds the jobs flag,
    when parallel builds are supported, and then [given]. *)
Definition make_spawn (h : list cell) (options : value) (given : list value)
    (c a op : value) (s' : state) : Prop :=
  c = VStr "make"
  ∧ ∃ l items,
      a = VRef l ∧ heap s' !! l = Some (CArr items)
      ∧ if truthy (setting h options "supportsParallelBuild" (VBool true))
        then ∃ cores N,
               cached_cores s' = Some cores
               ∧ job_count cores
                   (setting h options "maxParallelJobs" (VNum NInf)) = Some N
               ∧ items = VStr ("--jobs=" +:+ N) :: given
        else items = given.

(** ** A host and a store for the examples

    A Linux machine with three processors; [/src] holds a [config] script
    and no [configure]; [make] succeeds, [patch] fails with code 1. *)
Definition sample_cpuinfo : list string :=
  ["processor	: 0"; "vendor_id	: GenuineIntel"; "processor	: 1";
   "model name	: processor : 7"; "processor  : 2"; "processors : 9"].

Definition sample_host : host :=
  Host (fun p => bool_decide (p = "linux"))
       (fun f => bool_decide (f = "/src/config"))
       (fun f => if bool_decide (f = "/proc/cpuinfo") then Some sample_cpuinfo
                 else None)
       (fun a b => a +:+ "/" +:+ b)
       (fun _ cmd _ _ =>
          match cmd with
          | VStr "make" => Exited 0 "done" ""
          | VStr "patch" => Exited 1 "" "patch failed"
          | VStr "/src/config" => Exited 0 "configured" ""
          | _ => NotSpawned
          end).

(** A machine that is not Linux, with the same files. *)
Definition other_host : host :=
  Host (fun _ => false) (exists_file sample_host) (fun _ => None)
       (path_join sample_host) (child sample_host).

(** A fresh process whose caller holds an arguments array at 0, an
    environment at 1 and an options object at 2. *)
Definition sample_state : state :=
  State [CArr [VStr "all"; VStr "V=1"];
         CObj {[ "CC" := VStr "gcc" ]};
         CObj {[ "env" := VRef 1; "maxParallelJobs" := VNum (NInt 1);
                 "patchLevel" := VNum (NInt 1) ]}]
        None [].

Ltac unfold_m :=
  unfold mbind, M_bind, bind, mret, M_ret, ret, beyond, throw, lift in *.

(** ** The spawn in detail *)

(** A call that ends in [runWithinEnvironment], seen from the state [s]:
    stored arrays and objects are kept and the cache is as it was; either
    the call left the fragment before any spawn, or it spawned [cmd] once,
    with new options: an object that completes the keys [kvs] with the
    working directory [cwd], a new empty environment and no logger.  [kept]
    says what the arguments are, as [kept_args] does. *)
Definition spawn_detail (H : host) (cwd cmd : value)
    (kvs : gmap string value) (kept : option value) (s : state)
    (o : outcome value) (s' : state) : Prop :=
  heap s `prefix_of` heap s'
  ∧ memo s' = memo s
  ∧ ((o = Beyond ∧ trace s' = trace s)
     ∨ ∃ a le lo,
         trace s' = trace s ++ [EvSpawn cmd a (VRef lo)]
         ∧ o = exit_outcome cmd (child H (heap s') cmd a (VRef lo))
         ∧ (length (heap s) <= le)%nat ∧ (length (heap s) <= lo)%nat
         ∧ heap s' !! le = Some (CObj ∅)
         ∧ heap s' !! lo
           = Some (CObj (defaults kvs
                           {[ "cwd" := cwd; "env" := VRef le;
                              "logger" := VNull ]}))
         ∧ match kept with
           | Some v => a = v
           | None => ∃ l, a = VRef l ∧ heap s' !! l = Some (CArr [])
                          ∧ (length (heap s) <= l)%nat
           end).

(** The options [make] completes its own with. *)
Definition make_defaults : gmap string value :=
  {[ "supportsParallelBuild" := VBool true; "maxParallelJobs" := VNum NInf ]}.

(** The number of calls of the runner in a trace: the runner leaves one
    [EvSpawn] for each call, also when the child could not be started. *)
Definition spawns (tr : list event) : nat :=
  length (filter (fun e => is_spawn e = true) tr).

(** A call of [make] made with the working directory [cwd] and the options
    [kvs], seen from the state [s].  It leaves the fragment, or fails in the
    detection of the core count, which it runs with an empty cache when
    parallel builds are supported, or spawns [make] once with a new array of
    arguments and new options.  The detection is read exactly when it runs,
    and the cache is filled exactly then; without parallel builds neither
    the cache nor the trace changes before the spawn. *)
Definition make_detail (H : host) (cwd : value) (kvs : gmap string value)
    (s : state) (o : outcome value) (s' : state) : Prop :=
  let m := defaults kvs make_defaults in
  let parallel := truthy (default VUndefined (m !! "supportsParallelBuild")) in
  heap s `prefix_of` heap s'
  ∧ ((o = Beyond
      ∧ (parallel = false -> memo s' = memo s ∧ trace s' = trace s))
     ∨ (o = Throw (IoError "/proc/cpuinfo")
        ∧ parallel = true ∧ memo s = None ∧ core_count H = None
        ∧ memo s' = None ∧ trace s' = trace s ++ detection_reads H)
     ∨ ∃ la le lo reads,
         trace s' = trace s ++ reads ++ [EvSpawn (VStr "make") (VRef la)
                                           (VRef lo)]
         ∧ o = exit_outcome (VStr "make")
                 (child H (heap s') (VStr "make") (VRef la) (VRef lo))
         ∧ (length (heap s) <= la)%nat ∧ (length (heap s) <= le)%nat
         ∧ (length (heap s) <= lo)%nat
         ∧ heap s' !! le = Some (CObj ∅)
         ∧ heap s' !! lo
           = Some (CObj (defaults m
                           {[ "cwd" := cwd; "env" := VRef le;
                              "logger" := VNull ]}))
         ∧ if parallel then
             match memo s with
             | Some v => reads = [] ∧ memo s' = Some v
             | None => reads = detection_reads H
                       ∧ ∃ c, core_count H = Some c
                              ∧ cached_cores s' = Some (NInt c)
             end
           else reads = [] ∧ memo s' = memo s).

(** A call of [configure], seen from the state [s]: a [TypeError] when the
    directory is not a string, the error of [_findConfigureScript] when
    neither script exists, and otherwise the call of the runner on the
    script found under the directory. *)
Definition configure_detail (H : host) (cwd args options : value)
    (s : state) (o : outcome value) (s' : state) : Prop :=
  match cwd with
  | VStr dir =>
      match first_existing H dir with
      | Some script =>
          spawn_detail H cwd (VStr (path_join H dir script))
            (settings (heap s) (options_of (heap s) args options))
            (kept_args (heap s) args options) s o s'
      | None =>
          heap s `prefix_of` heap s' ∧ memo s' = memo s
          ∧ trace s' = trace s
          ∧ (o = Beyond
             ∨ o = Throw (JsError
                            ("Cannot find any of configure, config under "
                             +:+ dir)))
      end
  | _ =>
      heap s `prefix_of` heap s' ∧ memo s' = memo s ∧ trace s' = trace s
      ∧ (o = Beyond ∨ o = Throw JsTypeError)
  end.

(** A call that did nothing to the cache and read no file: the trace is as
    it was, or longer by one spawn. *)
Definition quiet (s s' : state) : Prop :=
  memo s' = memo s
  ∧ (trace s' = trace s
     ∨ ∃ cmd a op, trace s' = trace s ++ [EvSpawn cmd a op]).

Definition is_string (v : value) : bool :=
  match v with VStr _ => true | _ => false end.

(** A Linux machine whose CPU information file cannot be read. *)
Definition unreadable_host : host :=
  Host (fun p => bool_decide (p = "linux")) (exists_file sample_host)
       (fun _ => None) (path_join sample_host) (child sample_host).

(** A fresh process whose caller holds an options object that caps the
    jobs at 0 and moves the child to another directory. *)
Definition capped_state : state :=
  State [CObj {[ "maxParallelJobs" := VNum (NInt 0);
                 "cwd" := VStr "/elsewhere" ]}]
        None [].

(** The errors the runner raises: a child that exited with another code
    than 0, or a child that could not be started. *)
Definition runner_error (e : error) : bool :=
  match e with
  | ExecutionError _ _ _ _ | SpawnError _ => true
  | _ => false
  end.

(** The call ended in the error of a read. *)
Definition read_failed (o : outcome value) : bool :=
  match o with
  | Throw (IoError _) => true
  | _ => false
  end.

(** How many calls of a process ended in the error of a read, running them
    one after the other as [run_calls] does. *)
Fixpoint failed_detections (cs : list (host * call)) (s : state) : nat :=
  match cs with
  | [] => 0
  | (H, c) :: rest =>
      ((if read_failed (exec H c s).1 then 1 else 0)
       + failed_detections rest (exec H c s).2)%nat
  end.

(** * Lemmas *)

Section Wp.
Context {A B : Type}.

Lemma wp_run (m : M A) Q s o s' : m s = (o, s') -> Q o s' -> wp m Q s.
Proof. unfold wp. intros ->. done. Qed.

Lemma wp_mono (m : M A) (Q Q' : outcome A -> state -> Prop) s :
  wp m Q s -> (forall o s', Q o s' -> Q' o s') -> wp m Q' s.
Proof. unfold wp. auto. Qed.

Lemma wp_ret (a : A) Q s : Q (Ret a) s -> wp (mret a) Q s.
Proof. done. Qed.

Lemma wp_beyond (Q : outcome A -> state -> Prop) s :
  Q Beyond s -> wp beyond Q s.
Proof. done. Qed.

Lemma wp_bind (m : M A) (k : A -> M B) Q s :
  wp m (fun o s' => match o with
                    | Ret a => wp (k a) Q s'
                    | Throw e => Q (Throw e) s'
                    | Beyond => Q Beyond s'
                    end) s ->
  wp (m ≫= k) Q s.
Proof.
  unfold wp, mbind, M_bind, bind.
  destruct (m s) as [[a|e|] s1]; simpl; auto.
Qed.

Lemma wp_lift (x : option A) Q s :
  match x with Some a => Q (Ret a) s | None => Q Beyond s end ->
  wp (lift x) Q s.
Proof. destruct x; done. Qed.
End Wp.

Lemma lookup_fresh (h : list cell) c : (h ++ [c]) !! length h = Some c.
Proof. by apply list_lookup_middle. Qed.

Lemma lookup_past (h k : list cell) i :
  (h ++ k) !! (length h + i)%nat = k !! i.
Proof.
  rewrite lookup_app_r by lia. f_equal. lia.
Qed.

Lemma lookup_kept (h : list cell) c l x :
  h !! l = Some x -> (h ++ [c]) !! l = Some x.
Proof. apply lookup_app_l_Some. Qed.

Lemma prefix_update (h0 h : list cell) l c :
  h0 `prefix_of` h -> (length h0 <= l)%nat -> h0 `prefix_of` <[l := c]> h.
Proof.
  intros [k ->] Hl. exists (<[(l - length h0)%nat := c]> k).
  rewrite insert_app_r_alt by done. done.
Qed.

Lemma prefix_kept (h0 h : list cell) l c :
  h0 `prefix_of` h -> h0 !! l = Some c -> h !! l = Some c.
Proof. intros Hp E. by eapply prefix_lookup_Some. Qed.

Lemma defaults_lookup o d k : defaults o d !! k = fill (o !! k) (d !! k).
Proof.
  unfold defaults. rewrite lookup_merge.
  by destruct (o !! k), (d !! k).
Qed.

Lemma defaults_empty d : defaults ∅ d = d.
Proof.
  apply map_eq. intros k. rewrite defaults_lookup, lookup_empty. done.
Qed.

(** ** The processor pattern *)

Lemma strip_prefix_spec p s r :
  strip_prefix p s = Some r <-> s = p +:+ r.
Proof.
  revert s. induction p as [|a p IH]; intros s; simpl.
  - split; [by intros [= ->]|by intros ->].
  - destruct s as [|b s]; [done|].
    case_bool_decide as E.
    + subst b. rewrite IH. split; [by intros ->|by intros [= ->]].
    + split; [done|]. intros [= -> _]. done.
Qed.

Lemma blanks_then_colon_spec s :
  blanks_then_colon s = true
  <-> ∃ ws rest, all_spaces ws = true ∧ s = ws +:+ ":" +:+ rest.
Proof.
  induction s as [|c s IH]; simpl.
  - split; [done|]. intros (ws & rest & _ & E). by destruct ws.
  - case_bool_decide as Ec.
    + subst c. split; [|done]. intros _. by exists "", s.
    + destruct (is_space c) eqn:Es.
      * rewrite IH. split.
        -- intros (ws & rest & Hws & ->). exists (String c ws), rest.
           simpl. by rewrite Es, Hws.
        -- intros (ws & rest & Hws & E). destruct ws as [|d ws].
           { simpl in E. by injection E as -> _. }
           simpl in E, Hws. injection E as -> ->.
           apply andb_true_iff in Hws as [_ Hws]. eauto.
      * split; [done|]. intros (ws & rest & Hws & E).
        destruct ws as [|d ws]; simpl in E, Hws.
        { by injection E as -> _. }
        injection E as -> _. by rewrite Es in Hws.
Qed.

(** X20: [processor_line] accepts the lines that [/^processor\s+:/] matches:
    the word, one blank or more, a colon. *)
Lemma processor_line_spec line :
  processor_line line = true
  <-> ∃ ws rest, all_spaces ws = true ∧ ws <> ""
                 ∧ line = "processor" +:+ ws +:+ ":" +:+ rest.
Proof.
  unfold processor_line. split.
  - destruct (strip_prefix "processor" line) as [[|c r]|] eqn:E; try done.
    apply strip_prefix_spec in E.
    intros [Hc Hr]%andb_true_iff.
    apply blanks_then_colon_spec in Hr as (ws & rest & Hws & ->).
    exists (String c ws), rest. simpl. rewrite Hc, Hws. done.
  - intros (ws & rest & Hws & Hne & ->).
    destruct ws as [|c ws]; [done|]. simpl in Hws.
    apply andb_true_iff in Hws as [Hc Hws].
    assert (E : strip_prefix "processor"
                  ("processor" +:+ String c ws +:+ ":" +:+ rest)
                = Some (String c (ws +:+ ":" +:+ rest))).
    { by apply strip_prefix_spec. }
    rewrite E, Hc. simpl. apply blanks_then_colon_spec. eauto.
Qed.

Lemma processor_line_examples :
  processor_line <$> sample_cpuinfo = [true; false; true; false; true; false]
  ∧ processor_line "processor: 0" = false
  ∧ processor_line " processor : 0" = false
  ∧ matching_lines sample_cpuinfo = 3.
Proof. repeat split. Qed.

(** ** The first lines of the three functions *)

Lemma isReallyObject_run v s :
  valid (heap s) v = true ->
  isReallyObject v s = (Ret (is_object (heap s) v), s).
Proof.
  destruct v as [| |b|n|t|l]; try done. simpl.
  rewrite bool_decide_eq_true. intros Hl.
  destruct (lookup_lt_is_Some_2 (heap s) l Hl) as [c E].
  unfold isReallyObject, deref. unfold_m. rewrite E. by destruct c.
Qed.

Lemma args_or_options_fires args options s :
  reinterprets (heap s) args options = true ->
  args_or_options args options s
  = (Ret (VRef (length (heap s)), args), set_heap (heap s ++ [CArr []]) s).
Proof.
  unfold reinterprets. intros [Hu Ho]%andb_true_iff.
  unfold args_or_options. rewrite Hu.
  assert (Hv : valid (heap s) args = true).
  { destruct args; try done. simpl in *. rewrite bool_decide_eq_true.
    apply lookup_lt_is_Some. destruct (heap s !! l); [eauto|done]. }
  unfold_m. rewrite (isReallyObject_run _ _ Hv), Ho. done.
Qed.

Lemma args_or_options_keeps args options s :
  reinterprets (heap s) args options = false ->
  valid (heap s) args = true ->
  args_or_options args options s = (Ret (args, options), s).
Proof.
  unfold reinterprets, args_or_options. intros Hr Hv.
  destruct (isUndefined options); simpl in *.
  - unfold_m. rewrite (isReallyObject_run _ _ Hv), Hr. done.
  - done.
Qed.

Lemma isReallyObject_cases v s :
  isReallyObject v s = (Ret (is_object (heap s) v), s)
  \/ isReallyObject v s = (Beyond, s).
Proof.
  destruct v as [| |b|n|t|l]; try by left.
  unfold isReallyObject, deref, is_object. unfold_m.
  destruct (heap s !! l) as [[]|]; auto.
Qed.

Lemma args_or_options_again args options s a o s1 :
  args_or_options args options s = (Ret (a, o), s1) ->
  args_or_options a o s1 = (Ret (a, o), s1).
Proof.
  unfold args_or_options. destruct (isUndefined options) eqn:Hu.
  - unfold_m. destruct (isReallyObject_cases args s) as [E|E]; rewrite E; [|done].
    destruct (is_object (heap s) args) eqn:Ho.
    + intros [= <- <- <-].
      assert (isUndefined args = false) as ->; [|done].
      by destruct args.
    + intros [= <- <- <-]. rewrite Hu, E. done.
  - intros [= <- <- <-]. by rewrite Hu.
Qed.

(** ** [_.opts] and the command runner *)

Lemma opts_run options d s :
  usable (heap s) options = true ->
  opts options d s
  = (Ret (VRef (length (heap s))),
     set_heap (heap s ++ [CObj (defaults (settings (heap s) options) d)]) s).
Proof.
  destruct options as [| |b|n|t|l]; unfold usable, opts; intros Hu.
  1-5: rewrite negb_true_iff in Hu; rewrite Hu; simpl;
       by rewrite defaults_empty.
  simpl in Hu. unfold deref. unfold_m. simpl.
  destruct (heap s !! l) as [[]|]; done.
Qed.

Lemma opts_beyond options d s :
  usable (heap s) options = false -> opts options d s = (Beyond, s).
Proof.
  destruct options as [| |b|n|t|l]; unfold usable, opts; intros Hu.
  1-5: rewrite negb_false_iff in Hu; by rewrite Hu.
  simpl in Hu. unfold deref. unfold_m. simpl.
  destruct (heap s !! l) as [[]|]; done.
Qed.

Lemma usable_snoc h c options :
  usable h options = true -> usable (h ++ [c]) options = true.
Proof.
  destruct options as [| |b|n|t|l]; simpl; try done.
  destruct (h !! l) as [x|] eqn:E; [|done].
  by rewrite (lookup_kept _ c _ _ E).
Qed.

Lemma settings_snoc h c options :
  usable h options = true -> settings (h ++ [c]) options = settings h options.
Proof.
  destruct options as [| |b|n|t|l]; simpl; try done.
  destruct (h !! l) as [x|] eqn:E; [|done].
  by rewrite (lookup_kept _ c _ _ E).
Qed.

Lemma run_resolved_env H cwd cmd args options s :
  let h1 := heap s ++ [CObj ∅] in
  let o := CObj (defaults (settings h1 options)
                   {[ "cwd" := cwd; "env" := VRef (length (heap s));
                      "logger" := VNull ]}) in
  run_resolved H cwd cmd args options s
  = if usable h1 options then
      if nullish args then
        logExec H cmd (VRef (S (S (length (heap s)))))
          (VRef (S (length (heap s))))
          (set_heap (heap s ++ [CObj ∅; o; CArr []]) s)
      else
        logExec H cmd args (VRef (S (length (heap s))))
          (set_heap (heap s ++ [CObj ∅; o]) s)
    else (Beyond, set_heap h1 s).
Proof.
  intros h1 o. unfold run_resolved, new_object, new_array, alloc, nullish.
  unfold_m. simpl. fold h1.
  destruct (usable h1 options) eqn:Hu.
  - rewrite opts_run by done. simpl. fold o.
    assert (Hl : length h1 = S (length (heap s))).
    { unfold h1. rewrite length_app. simpl. lia. }
    destruct (isNull args || isUndefined args); simpl.
    + rewrite length_app, Hl. simpl. rewrite Nat.add_1_r.
      unfold set_heap, h1. simpl. by rewrite <- !app_assoc.
    + rewrite Hl. unfold set_heap, h1. simpl. by rewrite <- !app_assoc.
  - rewrite opts_beyond; done.
Qed.

Lemma run_resolved_eq H cwd cmd args options s :
  usable (heap s) options = true ->
  run_resolved H cwd cmd args options s
  = if nullish args then
      logExec H cmd (VRef (S (S (length (heap s))))) (VRef (S (length (heap s))))
        (set_heap (heap s ++ [CObj ∅; runner_options (heap s) cwd options;
                              CArr []]) s)
    else
      logExec H cmd args (VRef (S (length (heap s))))
        (set_heap (heap s ++ [CObj ∅; runner_options (heap s) cwd options]) s).
Proof.
  intros Hu. rewrite run_resolved_env.
  rewrite usable_snoc, settings_snoc by done. done.
Qed.

(** ** Telling [args] from [options] *)

Lemma text_or_array_keeps args options s :
  is_text_or_array (heap s) args = true ->
  args_or_options args options s = (Ret (args, options), s).
Proof.
  intros Ht. apply args_or_options_keeps.
  - unfold reinterprets. apply andb_false_iff. right.
    destruct args as [| |b|n|t|l]; try done. simpl in *.
    by destruct (heap s !! l) as [[]|].
  - destruct args as [| |b|n|t|l]; try done. simpl in *.
    apply bool_decide_eq_true, lookup_lt_is_Some.
    destruct (heap s !! l); [eauto|done].
Qed.

(** C6: when [options] is not given and [args] is a plain object, each of
    [runWithinEnvironment], [configure] and [make] goes on with a new empty
    array as [args] and the object as [options]; when [args] is a string or
    an array, each goes on with [args] and [options] as they were passed.
    Nothing else differs: the rest of the function is the same program. *)
Theorem overload_resolution (H : host) (cmd : value) (arguments : list value)
    (s : state) :
  let cwd := param 0 arguments in
  let args := param 1 arguments in
  let options := param 2 arguments in
  (options = VUndefined -> is_object (heap s) args = true ->
   runWithinEnvironment H cwd cmd args options s
   = (a ← new_array []; run_resolved H cwd cmd a args) s
   ∧ configure H cwd args options s
     = (a ← new_array []; configure_resolved H cwd a args) s
   ∧ make H arguments s
     = (a ← new_array [];
        make_resolved H (length arguments) cwd a args) s)
  ∧ (is_text_or_array (heap s) args = true ->
     runWithinEnvironment H cwd cmd args options s
     = run_resolved H cwd cmd args options s
     ∧ configure H cwd args options s
       = configure_resolved H cwd args options s
     ∧ make H arguments s
       = make_resolved H (length arguments) cwd args options s).
Proof.
  intros cwd args options. split.
  - intros Hu Ho.
    assert (E := args_or_options_fires args options s).
    unfold reinterprets in E. rewrite Hu, Ho in E. specialize (E eq_refl).
    unfold runWithinEnvironment, configure, make.
    fold cwd args options. rewrite Hu. unfold_m. rewrite E. done.
  - intros Ht. assert (E := text_or_array_keeps args options s Ht).
    unfold runWithinEnvironment, configure, make.
    fold cwd args options. unfold_m. rewrite E. done.
Qed.

Lemma overload_resolution_witness :
  make sample_host [VStr "/src"; VRef 2] sample_state
  = (a ← new_array [];
     make_resolved sample_host 2 (VStr "/src") a (VRef 2)) sample_state
  ∧ make sample_host [VStr "/src"; VRef 0; VRef 2] sample_state
    = make_resolved sample_host 3 (VStr "/src") (VRef 0) (VRef 2) sample_state.
Proof.
  split.
  - apply (overload_resolution sample_host (VStr "make")
             [VStr "/src"; VRef 2] sample_state); reflexivity.
  - apply (overload_resolution sample_host (VStr "make")
             [VStr "/src"; VRef 0; VRef 2] sample_state); reflexivity.
Defined.

(** ** [configure] *)

Lemma find_script H dir script s :
  first_existing H dir = Some script ->
  _findConfigureScript H (VStr dir) s
  = (Ret (VStr (path_join H dir script)), s).
Proof.
  unfold first_existing, _findConfigureScript, wellKnownScripts.
  simpl. unfold_m. simpl.
  destruct (exists_file H (path_join H dir "configure")).
  - by intros [= <-].
  - destruct (exists_file H (path_join H dir "config")); [|done].
    by intros [= <-].
Qed.

Lemma find_no_script H dir s :
  first_existing H dir = None ->
  _findConfigureScript H (VStr dir) s
  = (Throw (JsError ("Cannot find any of configure, config under " +:+ dir)),
     s).
Proof.
  unfold first_existing, _findConfigureScript, wellKnownScripts.
  simpl. unfold_m. simpl.
  destruct (exists_file H (path_join H dir "configure")); [done|].
  destruct (exists_file H (path_join H dir "config")); done.
Qed.

(** C3: in a directory where [configure] or [config] exists, [configure]
    takes [configure] when it exists and [config] otherwise, and is the call
    of [runWithinEnvironment] with the directory joined with that name as
    the command and with the [args] and [options] it was given. *)
Theorem configure_runs_first_script (H : host) (dir : string)
    (args options : value) (s : state) :
  exists_file H (path_join H dir "configure") = true
  ∨ exists_file H (path_join H dir "config") = true ->
  let script := if exists_file H (path_join H dir "configure")
                then "configure" else "config" in
  configure H (VStr dir) args options s
  = runWithinEnvironment H (VStr dir) (VStr (path_join H dir script))
      args options s.
Proof.
  intros Hex script.
  assert (Hf : first_existing H dir = Some script).
  { unfold first_existing, script.
    destruct (exists_file H (path_join H dir "configure")); [done|].
    by destruct Hex as [? | ->]. }
  unfold configure, runWithinEnvironment at 1. unfold_m.
  destruct (args_or_options args options s) as [[[a o]|e|] s1] eqn:E;
    try done.
  unfold configure_resolved. unfold_m.
  rewrite (find_script _ _ _ _ Hf).
  unfold runWithinEnvironment. unfold_m.
  by rewrite (args_or_options_again _ _ _ _ _ _ E).
Qed.

Lemma configure_runs_first_script_witness :
  configure sample_host (VStr "/src") (VStr "--prefix=/opt") VNull
    sample_state
  = runWithinEnvironment sample_host (VStr "/src") (VStr "/src/config")
      (VStr "--prefix=/opt") VNull sample_state.
Proof.
  apply (configure_runs_first_script sample_host "/src").
  right. reflexivity.
Defined.

(** C4: in a directory with neither [configure] nor [config], [configure]
    throws an error whose message names both scripts and the directory; the
    runner never raises that error, and no child process is started. *)
Theorem configure_not_found (H : host) (dir : string) (args options : value)
    (s : state) :
  valid (heap s) args = true ->
  exists_file H (path_join H dir "configure") = false ->
  exists_file H (path_join H dir "config") = false ->
  let e := JsError ("Cannot find any of configure, config under " +:+ dir) in
  (configure H (VStr dir) args options s).1 = Throw e
  ∧ trace (configure H (VStr dir) args options s).2 = trace s
  ∧ forall cmd r, exit_outcome cmd r <> Throw e.
Proof.
  intros Hv H1 H2 e.
  assert (Hf : first_existing H dir = None).
  { unfold first_existing. by rewrite H1, H2. }
  split; [|split].
  - unfold configure. unfold_m.
    destruct (reinterprets (heap s) args options) eqn:Hr.
    + rewrite args_or_options_fires by done.
      unfold configure_resolved. unfold_m. by rewrite find_no_script.
    + rewrite args_or_options_keeps by done.
      unfold configure_resolved. unfold_m. by rewrite find_no_script.
  - unfold configure. unfold_m.
    destruct (reinterprets (heap s) args options) eqn:Hr.
    + rewrite args_or_options_fires by done.
      unfold configure_resolved. unfold_m. by rewrite find_no_script.
    + rewrite args_or_options_keeps by done.
      unfold configure_resolved. unfold_m. by rewrite find_no_script.
  - intros cmd [code out err|]; simpl; [|done]. by case_bool_decide.
Qed.

Lemma configure_not_found_witness :
  (configure sample_host (VStr "/tmp") (VRef 0) (VRef 2) sample_state).1
  = Throw (JsError "Cannot find any of configure, config under /tmp")
  ∧ trace (configure sample_host (VStr "/tmp") (VRef 0) (VRef 2)
             sample_state).2 = []
  ∧ forall cmd r,
      exit_outcome cmd r
      <> Throw (JsError "Cannot find any of configure, config under /tmp").
Proof.
  apply (configure_not_found sample_host "/tmp" (VRef 0) (VRef 2)
           sample_state); reflexivity.
Defined.

(** ** [patch] *)

Lemma setting_defaults h options k d (D : gmap string value) :
  D !! k = Some d ->
  default VUndefined (defaults (settings h options) D !! k)
  = setting h options k d.
Proof.
  intros HD. rewrite defaults_lookup, HD. unfold setting.
  by destruct (settings h options !! k) as [[]|].
Qed.

Lemma get_prop_fresh h m tr kvs k :
  get_prop (VRef (length h)) k (State (h ++ [CObj kvs]) m tr)
  = (Ret (default VUndefined (kvs !! k)), State (h ++ [CObj kvs]) m tr).
Proof.
  unfold get_prop, deref. unfold_m. simpl. by rewrite lookup_fresh.
Qed.

(** C7: [patch] is the call of [runWithinEnvironment] with the command
    [patch] and a new array of three elements, [-p<patchLevel>], [-i] and the
    patch file, where [patchLevel] is [options.patchLevel] when it is given
    and 0 otherwise. *)
Theorem patch_arguments (H : host) (cwd patchFile options : value)
    (s : state) (p : string) :
  usable (heap s) options = true ->
  to_text (setting (heap s) options "patchLevel" (VNum (NInt 0))) = Some p ->
  patch H cwd patchFile options s
  = runWithinEnvironment H cwd (VStr "patch")
      (VRef (S (length (heap s)))) (VRef (length (heap s)))
      (set_heap
         (heap s
          ++ [CObj (defaults (settings (heap s) options)
                      {[ "patchLevel" := VNum (NInt 0) ]});
              CArr [VStr ("-p" +:+ p); VStr "-i"; patchFile]]) s).
Proof.
  intros Hu Hp. unfold patch. unfold_m. rewrite opts_run by done.
  unfold set_heap at 1. rewrite get_prop_fresh.
  rewrite (setting_defaults _ _ _ (VNum (NInt 0))) by done.
  unfold template. unfold_m. rewrite Hp.
  unfold new_array, alloc, set_heap. simpl.
  rewrite length_app, Nat.add_1_r. simpl. by rewrite <- app_assoc.
Qed.

Lemma patch_arguments_witness :
  patch sample_host (VStr "/src") (VStr "fix.patch") (VRef 2) sample_state
  = runWithinEnvironment sample_host (VStr "/src") (VStr "patch")
      (VRef 4) (VRef 3)
      (set_heap
         (heap sample_state
          ++ [CObj (defaults (settings (heap sample_state) (VRef 2))
                      {[ "patchLevel" := VNum (NInt 0) ]});
              CArr [VStr "-p1"; VStr "-i"; VStr "fix.patch"]]) sample_state).
Proof.
  apply (patch_arguments sample_host (VStr "/src") (VStr "fix.patch")
           (VRef 2) sample_state "1"); reflexivity.
Defined.

(** ** What every call does *)

Lemma call_post_weaken H (P P' : value -> value -> value -> state -> Prop)
    s o s' :
  call_post H P s o s' ->
  (forall c a op, P c a op s' -> P' c a op s') ->
  call_post H P' s o s'.
Proof.
  intros (Hp & Hc & reads & tail & Ht & Hr & Hs) HP.
  split; [done|]. split; [done|]. exists reads, tail.
  split; [done|]. split; [done|].
  destruct Hs as [?|(c & a & op & ? & ? & ?)]; [by left|].
  right. exists c, a, op. auto.
Qed.

(** A call that went on from [s1], reached from [s] by allocations only. *)
Lemma call_post_rebase H (P P' : value -> value -> value -> state -> Prop)
    s s1 o s' :
  heap s `prefix_of` heap s1 -> memo s1 = memo s -> trace s1 = trace s ->
  call_post H P s1 o s' ->
  (forall c a op, P c a op s' -> P' c a op s') ->
  call_post H P' s o s'.
Proof.
  intros Hh Hm Ht (Hp & Hc & reads & tail & Htr & Hr & Hs) HP.
  split; [by etrans|]. split.
  { destruct Hc as [Hc|(Hn & c & l & ? & ? & ? & Hl)].
    - left. by rewrite Hc.
    - right. split; [by rewrite <- Hm|]. exists c, l.
      repeat split; try done.
      apply prefix_length in Hh. lia. }
  exists reads, tail. split; [by rewrite <- Ht|].
  split; [unfold reads_rule in *; by rewrite <- Hm|].
  destruct Hs as [?|(c & a & op & ? & ? & ?)]; [by left|].
  right. exists c, a, op. auto.
Qed.

Lemma call_post_early H P s o s' :
  heap s `prefix_of` heap s' -> memo s' = memo s -> trace s' = trace s ->
  early o -> call_post H P s o s'.
Proof.
  intros Hh Hm Ht He. split; [done|]. split; [by left|].
  exists [], []. rewrite Ht. simpl. rewrite app_nil_r.
  split; [done|]. split; [by left|]. auto.
Qed.

Lemma run_resolved_post H cwd cmd args options s :
  wp (run_resolved H cwd cmd args options)
     (call_post H (run_spawn cmd (if nullish args then None else Some args) s)
        s) s.
Proof.
  unfold wp. rewrite run_resolved_env.
  destruct (usable _ options).
  - destruct (nullish args); unfold logExec, log, set_heap; simpl.
    + split; [by apply prefix_app_r|]. split; [by left|].
      exists [], [EvSpawn cmd (VRef (S (S (length (heap s)))))
                    (VRef (S (length (heap s))))].
      split; [done|]. split; [by left|]. right.
      eexists _, _, _. split; [done|]. split; [done|]. split; [done|].
      eexists. split; [done|]. split; [|lia].
      replace (S (S (length (heap s))))
        with (length (heap s) + 2)%nat by lia.
      simpl. by rewrite lookup_past.
    + split; [by apply prefix_app_r|]. split; [by left|].
      exists [], [EvSpawn cmd args (VRef (S (length (heap s))))].
      split; [done|]. split; [by left|]. right.
      eexists _, _, _. done.
  - apply call_post_early; simpl; try done. by apply prefix_app_r.
Qed.

Lemma args_or_options_cases args options s :
  (reinterprets (heap s) args options = true
   ∧ args_or_options args options s
     = (Ret (VRef (length (heap s)), args),
        set_heap (heap s ++ [CArr []]) s))
  ∨ (reinterprets (heap s) args options = false
     ∧ args_or_options args options s = (Ret (args, options), s))
  ∨ args_or_options args options s = (Beyond, s).
Proof.
  destruct (reinterprets (heap s) args options) eqn:Hr.
  - left. split; [done|]. by apply args_or_options_fires.
  - right. unfold args_or_options. unfold reinterprets in Hr.
    destruct (isUndefined options); simpl in *; [|by left].
    unfold_m. destruct (isReallyObject_cases args s) as [E|E]; rewrite E.
    + rewrite Hr. by left.
    + by right.
Qed.

Lemma runWithinEnvironment_post H cwd cmd args options s :
  wp (runWithinEnvironment H cwd cmd args options)
     (call_post H (run_spawn cmd (kept_args (heap s) args options) s) s) s.
Proof.
  unfold runWithinEnvironment. apply wp_bind.
  destruct (args_or_options_cases args options s)
    as [[Hr E]|[[Hr E]|E]]; (eapply wp_run; [exact E|]).
  - eapply wp_mono; [apply run_resolved_post|]. intros o s' Hpost.
    eapply call_post_rebase; [..|exact Hpost|]; simpl; try done.
    { by apply prefix_app_r. }
    unfold kept_args. rewrite Hr.
    assert (Hp : (heap s ++ [CArr []]) `prefix_of` heap s') by apply Hpost.
    intros c a op [-> ->]. split; [done|].
    exists (length (heap s)). split; [done|]. split; [|lia].
    eapply prefix_kept; [exact Hp|]. apply lookup_fresh.
  - eapply wp_mono; [apply run_resolved_post|]. intros o s' Hpost.
    eapply call_post_weaken; [exact Hpost|].
    unfold kept_args. rewrite Hr. done.
  - apply call_post_early; done.
Qed.

Lemma find_cases H cwd s :
  ∃ o, _findConfigureScript H cwd s = (o, s) ∧ (early o ∨ ∃ v, o = Ret v).
Proof.
  destruct cwd as [| |b|n|t|l];
    try (exists (Throw JsTypeError); split; [done|by left]).
  destruct (first_existing H t) as [script|] eqn:E.
  - eexists. split; [by apply find_script|]. right. eauto.
  - eexists. split; [by apply find_no_script|]. by left.
Qed.

Lemma configure_post H cwd args options s :
  wp (configure H cwd args options) (call_post H (fun _ _ _ _ => True) s) s.
Proof.
  assert (Hres : forall a o s1,
    heap s `prefix_of` heap s1 -> memo s1 = memo s -> trace s1 = trace s ->
    wp (configure_resolved H cwd a o) (call_post H (fun _ _ _ _ => True) s)
       s1).
  { intros a o s1 Hh Hm Ht. unfold configure_resolved. apply wp_bind.
    destruct (find_cases H cwd s1) as (r & E & Hr).
    eapply wp_run; [exact E|].
    destruct Hr as [He|[v ->]].
    - destruct r as [v|e|]; try done; by apply call_post_early.
    - eapply wp_mono; [apply runWithinEnvironment_post|].
      intros o' s' Hpost.
      eapply call_post_rebase; [..|exact Hpost|]; done. }
  unfold configure. apply wp_bind.
  destruct (args_or_options_cases args options s)
    as [[Hr E]|[[Hr E]|E]]; (eapply wp_run; [exact E|]).
  - apply Hres; simpl; try done. by apply prefix_app_r.
  - by apply Hres.
  - by apply call_post_early.
Qed.

Lemma patch_post H cwd patchFile options s :
  wp (patch H cwd patchFile options) (call_post H (fun _ _ _ _ => True) s) s.
Proof.
  unfold patch. apply wp_bind.
  destruct (usable (heap s) options) eqn:Hu.
  2: { eapply wp_run; [by apply opts_beyond|]. by apply call_post_early. }
  eapply wp_run; [by apply opts_run|].
  apply wp_bind. eapply wp_run; [apply get_prop_fresh|].
  apply wp_bind. apply wp_lift.
  destruct (to_text _) as [p|].
  2: { apply call_post_early; simpl; try done. by apply prefix_app_r. }
  apply wp_bind. unfold new_array. eapply wp_run; [reflexivity|].
  eapply wp_mono; [apply runWithinEnvironment_post|].
  intros o' s' Hpost.
  eapply call_post_rebase; [..|exact Hpost|]; simpl; try done.
  rewrite <- app_assoc. by apply prefix_app_r.
Qed.

(** ** Host information *)

Lemma count_lines lines n :
  fold_left (fun cores line => if processor_line line then cores + 1
                               else cores) lines n
  = n + matching_lines lines.
Proof.
  unfold matching_lines. revert n.
  induction lines as [|line lines IH]; intros n; simpl; [lia|].
  rewrite IH. rewrite filter_cons.
  destruct (processor_line line) eqn:E.
  - rewrite decide_True by done. simpl. lia.
  - rewrite decide_False by congruence. lia.
Qed.

Lemma machineInformation_cached H s v :
  memo s = Some v -> _machineInformation H s = (Ret v, s).
Proof. unfold _machineInformation, memoize. by intros ->. Qed.

Lemma machineInformation_first H s c :
  memo s = None ->
  core_count H = Some c ->
  _machineInformation H s
  = (Ret (VRef (length (heap s))),
     State (heap s ++ [CObj {[ "cores" := VNum (NInt c) ]}])
           (Some (VRef (length (heap s))))
           (trace s ++ detection_reads H)).
Proof.
  intros Hm Hc. unfold _machineInformation, memoize. rewrite Hm.
  unfold machineInformation_body, core_count, detection_reads in *.
  unfold new_object, alloc, eachLine. unfold_m. simpl.
  destruct (isPlatform H "linux").
  - destruct (file_lines H "/proc/cpuinfo") as [lines|]; [|done].
    unfold log, set_heap, get_prop, deref, Math_max. unfold_m. simpl.
    rewrite lookup_fresh. simpl. rewrite lookup_singleton_eq. simpl.
    unfold set_prop. simpl. rewrite lookup_fresh.
    unfold set_memo, set_heap. simpl.
    rewrite count_lines, Z.add_0_l.
    injection Hc as <-.
    rewrite insert_app_r_alt, Nat.sub_diag by done. simpl.
    by rewrite insert_singleton_eq.
  - injection Hc as <-. unfold set_memo, set_heap. simpl.
    by rewrite app_nil_r.
Qed.

Lemma machineInformation_fails H s :
  memo s = None ->
  core_count H = None ->
  _machineInformation H s
  = (Throw (IoError "/proc/cpuinfo"),
     State (heap s ++ [CObj {[ "cores" := VNum (NInt 2) ]}]) None
           (trace s ++ detection_reads H)).
Proof.
  intros Hm Hc. unfold _machineInformation, memoize. rewrite Hm.
  unfold machineInformation_body, core_count, detection_reads in *.
  unfold new_object, alloc, eachLine. unfold_m. simpl.
  destruct (isPlatform H "linux"); [|done].
  destruct (file_lines H "/proc/cpuinfo") as [lines|]; [done|].
  unfold log, set_heap. simpl. by rewrite Hm.
Qed.

Lemma core_count_floor H c : core_count H = Some c -> 2 <= c.
Proof.
  unfold core_count. destruct (isPlatform H "linux").
  - destruct (file_lines H "/proc/cpuinfo"); [|done].
    simpl. intros [= <-]. lia.
  - intros [= <-]. lia.
Qed.

(** ** [make] *)

Lemma get_prop_at l k kvs s :
  heap s !! l = Some (CObj kvs) ->
  get_prop (VRef l) k s = (Ret (default VUndefined (kvs !! k)), s).
Proof.
  intros E. unfold get_prop, deref. unfold_m. by rewrite E.
Qed.

Lemma get_prop_cases v k s :
  (∃ l kvs, v = VRef l ∧ heap s !! l = Some (CObj kvs)
            ∧ get_prop v k s = (Ret (default VUndefined (kvs !! k)), s))
  ∨ get_prop v k s = (Beyond, s).
Proof.
  destruct v as [| |b|n|t|l]; try by right.
  unfold get_prop, deref. unfold_m.
  destruct (heap s !! l) as [[xs|kvs]|] eqn:E; try by right.
  left. eauto.
Qed.

Lemma toArray_cases args s :
  toArray args s
  = (Ret (VRef (length (heap s))),
     set_heap (heap s ++ [CArr (items_of (heap s) args)]) s)
  ∨ toArray args s = (Beyond, s).
Proof.
  destruct args as [| |b|n|t|l]; try by left.
  unfold toArray, deref. unfold_m. simpl.
  destruct (heap s !! l) as [[]|]; auto.
Qed.

Lemma concat_run la lb xs ys s :
  heap s !! la = Some (CArr xs) -> heap s !! lb = Some (CArr ys) ->
  concat (VRef la) (VRef lb) s
  = (Ret (VRef (length (heap s))), set_heap (heap s ++ [CArr (xs ++ ys)]) s).
Proof.
  intros Ea Eb. unfold concat, deref. unfold_m. by rewrite Ea, Eb.
Qed.

Lemma push_run l xs v s :
  heap s !! l = Some (CArr xs) ->
  push (VRef l) v s
  = (Ret tt, set_heap (<[l := CArr (xs ++ [v])]> (heap s)) s).
Proof. intros E. unfold push. by rewrite E. Qed.

Lemma cached_cores_kept s s' c :
  heap s `prefix_of` heap s' -> memo s' = memo s ->
  cached_cores s = Some c -> cached_cores s' = Some c.
Proof.
  unfold cached_cores. intros Hp ->.
  destruct (memo s) as [[| |b|n|t|l]|]; try done.
  destruct (heap s !! l) as [x|] eqn:E; [|done].
  by rewrite (prefix_kept _ _ _ _ Hp E).
Qed.

Lemma cache_rule_trans H s0 s1 s2 :
  heap s0 `prefix_of` heap s1 -> heap s1 `prefix_of` heap s2 ->
  cache_rule H s0 s1 -> cache_rule H s1 s2 -> cache_rule H s0 s2.
Proof.
  intros H01 H12 [E1|(N1 & c & l & Hc & Hm & Hl & Hle)]
                 [E2|(N2 & c' & l' & Hc' & Hm' & Hl' & Hle')].
  - left. congruence.
  - right. split; [congruence|]. exists c', l'. repeat split; try done.
    apply prefix_length in H01. lia.
  - right. split; [done|]. exists c, l. repeat split; try done.
    + congruence.
    + by eapply prefix_kept.
  - congruence.
Qed.

(** A call that went on from [s1], reached from [s0] by allocations and at
    most one detection. *)
Lemma call_post_seq H (P P' : value -> value -> value -> state -> Prop)
    s0 s1 o s' reads :
  heap s0 `prefix_of` heap s1 -> cache_rule H s0 s1 ->
  trace s1 = trace s0 ++ reads ->
  (reads = [] ∨ (memo s0 = None ∧ memo s1 <> None
                 ∧ reads = detection_reads H)) ->
  call_post H P s1 o s' ->
  (forall c a op, P c a op s' -> P' c a op s') ->
  call_post H P' s0 o s'.
Proof.
  intros Hh Hc Ht Hr (Hp & Hc' & reads' & tail & Htr & Hr' & Hs) HP.
  split; [by etrans|]. split; [by eapply cache_rule_trans|].
  exists (reads ++ reads'), tail.
  split; [rewrite Htr, Ht; by rewrite <- !app_assoc|].
  split.
  { destruct Hr as [->|(Hn & Hne & ->)].
    - simpl. destruct Hr' as [->|(Hn' & -> & Hd)]; [by left|].
      right. split; [|done].
      destruct Hc as [E|(? & _)]; congruence.
    - destruct Hr' as [->|[Hn' _]]; [|done].
      rewrite app_nil_r. right. split; [done|]. split; [done|]. right.
      destruct Hc' as [E|(? & _)]; congruence. }
  destruct Hs as [?|(c & a & op & ? & ? & ?)]; [by left|].
  right. exists c, a, op. auto.
Qed.

Lemma call_post_stop H P s0 o s' reads :
  heap s0 `prefix_of` heap s' -> cache_rule H s0 s' ->
  trace s' = trace s0 ++ reads ->
  reads_rule H s0 s' reads ->
  early o -> call_post H P s0 o s'.
Proof.
  intros Hh Hc Ht Hr He. split; [done|]. split; [done|].
  exists reads, []. rewrite app_nil_r. auto.
Qed.

Lemma make_tail H n cwd args L flagitems reads s0 s5 :
  heap s0 `prefix_of` heap s5 -> cache_rule H s0 s5 ->
  trace s5 = trace s0 ++ reads ->
  (reads = [] ∨ (memo s0 = None ∧ memo s5 <> None
                 ∧ reads = detection_reads H)) ->
  heap s5 !! S L = Some (CArr flagitems) ->
  ((0 < n)%nat ∨ args = VUndefined) ->
  wp (makeArgs ← (if bool_decide (0 < n)%nat then
                    a ← toArray args; concat (VRef (S L)) a
                  else mret (VRef (S L)));
      runWithinEnvironment H cwd (VStr "make") makeArgs (VRef L))
     (call_post H
        (fun c a op s' =>
           c = VStr "make"
           ∧ (∃ l, a = VRef l
                   ∧ heap s' !! l
                     = Some (CArr (flagitems ++ items_of (heap s5) args)))
           ∧ forall k, cached_cores s5 = Some k -> cached_cores s' = Some k)
        s0) s5.
Proof.
  intros Hh Hc Ht Hr Hm Hn.
  assert (Hrun : forall l s6,
    heap s5 `prefix_of` heap s6 -> memo s6 = memo s5 -> trace s6 = trace s5 ->
    heap s6 !! l = Some (CArr (flagitems ++ items_of (heap s5) args)) ->
    wp (runWithinEnvironment H cwd (VStr "make") (VRef l) (VRef L))
       (call_post H
          (fun c a op s' =>
             c = VStr "make"
             ∧ (∃ l, a = VRef l
                     ∧ heap s' !! l
                       = Some (CArr (flagitems ++ items_of (heap s5) args)))
             ∧ forall k, cached_cores s5 = Some k -> cached_cores s' = Some k)
          s0) s6).
  { intros l s6 Hp6 Hm6 Ht6 Hl6.
    eapply wp_mono; [apply runWithinEnvironment_post|].
    intros o s' Hpost.
    assert (Hp' : heap s6 `prefix_of` heap s') by apply Hpost.
    assert (Hc6 : cache_rule H s6 s') by apply Hpost.
    eapply (call_post_seq _ _ _ s0 s6); [..|exact Hpost|].
    - by etrans.
    - eapply cache_rule_trans; [exact Hh|exact Hp6|exact Hc|].
      left. done.
    - by rewrite Ht6.
    - rewrite Hm6. done.
    - intros c a op [-> Ha]. split; [done|]. split.
      + exists l. split; [done|]. by eapply prefix_kept.
      + intros k Hk. eapply cached_cores_kept; [..|exact Hk].
        * by etrans.
        * destruct Hc6 as [E|(E & _)]; [congruence|].
          unfold cached_cores in Hk. rewrite <- Hm6, E in Hk. done. }
  assert (Hr' : reads_rule H s0 s5 reads).
  { destruct Hr as [?|(? & ? & ?)]; [by left|right; auto]. }
  apply wp_bind. case_bool_decide as Hpos.
  - apply wp_bind.
    destruct (toArray_cases args s5) as [E|E];
      (eapply wp_run; [exact E|]); [|by eapply call_post_stop].
    eapply wp_run.
    { eapply concat_run; simpl.
      - by apply lookup_kept.
      - apply lookup_fresh. }
    apply Hrun; simpl; try done.
    + rewrite <- app_assoc. by apply prefix_app_r.
    + apply lookup_fresh.
  - apply wp_ret. destruct Hn as [?|Hn]; [done|]. subst args.
    apply Hrun; try done. simpl. by rewrite app_nil_r.
Qed.

Lemma items_of_kept h h' v :
  h `prefix_of` h' -> valid h v = true -> items_of h' v = items_of h v.
Proof.
  destruct v as [| |b|n|t|l]; try done. simpl.
  intros Hp Hv%bool_decide_eq_true.
  destruct (lookup_lt_is_Some_2 _ _ Hv) as [c E].
  by rewrite E, (prefix_kept _ _ _ _ Hp E).
Qed.

Lemma jobs_rest (info : value) (L : nat) (m : gmap string value)
    (Q : outcome unit -> state -> Prop) (s4 : state) :
  heap s4 !! L = Some (CObj m) ->
  heap s4 !! S L = Some (CArr []) ->
  Q Beyond s4 ->
  (forall li kvs cores N,
     info = VRef li -> heap s4 !! li = Some (CObj kvs) ->
     kvs !! "cores" = Some (VNum cores) ->
     job_count cores (default VUndefined (m !! "maxParallelJobs")) = Some N ->
     Q (Ret tt)
       (set_heap (<[S L := CArr [VStr ("--jobs=" +:+ N)]]> (heap s4)) s4)) ->
  wp (cores ← get_prop info "cores";
      n ← js_plus cores (VNum (NInt 1));
      maxParallelJobs ← get_prop (VRef L) "maxParallelJobs";
      j ← Math_min n maxParallelJobs;
      flag ← template j;
      push (VRef (S L)) (VStr ("--jobs=" +:+ flag))) Q s4.
Proof.
  intros HL HA HB HQ. apply wp_bind.
  destruct (get_prop_cases info "cores" s4)
    as [(li & kvs & -> & Hli & E)|E]; (eapply wp_run; [exact E|]); [|done].
  destruct (kvs !! "cores") as [[| |b|cores|t|l]|] eqn:Hk; simpl;
    try (apply wp_bind; by apply wp_beyond).
  apply wp_bind. unfold js_plus.
  destruct (safe (number_add cores (NInt 1))); [|by apply wp_beyond].
  apply wp_ret.
  apply wp_bind. eapply wp_run; [by apply get_prop_at|].
  unfold Math_min. apply wp_bind. apply wp_bind. apply wp_lift. simpl.
  apply wp_bind. apply wp_lift.
  destruct (to_number (default VUndefined (m !! "maxParallelJobs")))
    as [nm|] eqn:Hnm; [|done].
  apply wp_ret. apply wp_bind. unfold template. apply wp_lift. simpl.
  destruct (number_to_string _) as [N|] eqn:HN; [|done].
  eapply wp_run; [by apply push_run|]. simpl.
  eapply HQ; try done. unfold job_count. by rewrite Hnm.
Qed.

Lemma make_resolved_post H n cwd args options s0 s :
  heap s0 `prefix_of` heap s -> memo s = memo s0 -> trace s = trace s0 ->
  ((0 < n)%nat ∨ args = VUndefined) ->
  wp (make_resolved H n cwd args options)
     (call_post H
        (fun c a op s' =>
           valid (heap s) args = true ->
           make_spawn (heap s) options (items_of (heap s) args) c a op s')
        s0) s.
Proof.
  intros Hh Hm Ht Hn. unfold make_resolved. apply wp_bind.
  destruct (usable (heap s) options) eqn:Hu.
  2: { eapply wp_run; [by apply opts_beyond|]. by apply call_post_early. }
  eapply wp_run; [by apply opts_run|].
  set (D := {[ "supportsParallelBuild" := VBool true;
               "maxParallelJobs" := VNum NInf ]} : gmap string value).
  set (m := defaults (settings (heap s) options) D).
  set (L := length (heap s)).
  apply wp_bind. unfold new_array. eapply wp_run; [reflexivity|].
  simpl. rewrite length_app. simpl. rewrite Nat.add_1_r. fold L.
  set (s3 := set_heap ((heap s ++ [CObj m]) ++ [CArr []])
               (set_heap (heap s ++ [CObj m]) s)).
  assert (HL3 : heap s3 !! L = Some (CObj m)).
  { simpl. apply lookup_kept, lookup_fresh. }
  assert (HA3 : heap s3 !! S L = Some (CArr [])).
  { simpl. replace (S L) with (length (heap s ++ [CObj m])).
    - apply lookup_fresh.
    - rewrite length_app. simpl. lia. }
  assert (Hp3 : heap s `prefix_of` heap s3).
  { simpl. rewrite <- app_assoc. by apply prefix_app_r. }
  apply wp_bind. eapply wp_run; [by apply get_prop_at|].
  assert (Hsp : default VUndefined (m !! "supportsParallelBuild")
                = setting (heap s) options "supportsParallelBuild"
                    (VBool true)) by (by apply setting_defaults).
  assert (Hmx : default VUndefined (m !! "maxParallelJobs")
                = setting (heap s) options "maxParallelJobs" (VNum NInf))
    by (by apply setting_defaults).
  rewrite Hsp.
  set (sp := setting (heap s) options "supportsParallelBuild" (VBool true)).
  assert (HL0 : (length (heap s0) <= L)%nat) by (by apply prefix_length).
  assert (Hfin : forall reads s5 flagitems,
    heap s `prefix_of` heap s5 -> cache_rule H s0 s5 ->
    trace s5 = trace s0 ++ reads ->
    (reads = [] ∨ (memo s0 = None ∧ memo s5 <> None
                   ∧ reads = detection_reads H)) ->
    heap s5 !! S L = Some (CArr flagitems) ->
    (if truthy sp
     then ∃ cores N,
            cached_cores s5 = Some cores
            ∧ job_count cores
                (setting (heap s) options "maxParallelJobs" (VNum NInf))
              = Some N
            ∧ flagitems = [VStr ("--jobs=" +:+ N)]
     else flagitems = []) ->
    wp ((if bool_decide (0 < n)%nat then
           a ← toArray args; concat (VRef (S L)) a
         else mret (VRef (S L)))
        ≫= fun makeArgs =>
             runWithinEnvironment H cwd (VStr "make") makeArgs (VRef L))
       (call_post H
          (fun c a op s' =>
             valid (heap s) args = true ->
             make_spawn (heap s) options (items_of (heap s) args) c a op s')
          s0) s5).
  { intros reads s5 flagitems Hp5 Hc5 Ht5 Hr5 Hm5 Hflag.
    eapply wp_mono.
    { eapply (make_tail H n cwd args L flagitems reads s0 s5); try done.
      by etrans. }
    intros o s' Hpost. eapply call_post_weaken; [exact Hpost|].
    intros c a op (-> & (l & -> & Hl) & Hk) Hv.
    assert (Hi5 : items_of (heap s5) args = items_of (heap s) args)
      by (by apply items_of_kept).
    split; [done|].
    exists l, (flagitems ++ items_of (heap s) args).
    split; [done|]. split; [by rewrite <- Hi5|].
    fold sp. destruct (truthy sp).
    - destruct Hflag as (cores & N & Hcc & Hj & ->).
      exists cores, N. auto.
    - by rewrite Hflag. }
  apply wp_bind. destruct (truthy sp) eqn:Htr.
  2: { apply wp_ret. apply (Hfin [] s3 []); try done.
       - left. simpl. done.
       - simpl. by rewrite app_nil_r. 
       - by left. }
  apply wp_bind.
  destruct (memo s0) as [v|] eqn:Hm0.
  - eapply wp_run.
    { apply machineInformation_cached. simpl. by rewrite Hm. }
    apply (jobs_rest _ L m); try done.
    + eapply call_post_stop with (reads := []); simpl; try done.
      * by etrans.
      * left. simpl. congruence.
      * by rewrite app_nil_r.
      * by left.
    + intros li kvs cores N -> Hli Hk Hj.
      assert (Hne : li <> S L) by congruence.
      apply (Hfin [] _ [VStr ("--jobs=" +:+ N)]); simpl; try done.
      * apply prefix_update; [done|]. lia.
      * left. simpl. congruence.
      * by rewrite app_nil_r.
      * by left.
      * apply list_lookup_insert_eq. by eapply lookup_lt_Some.
      * exists cores, N. split; [|by rewrite <- Hmx].
        unfold cached_cores. simpl. rewrite Hm.
        rewrite list_lookup_insert_ne by done.
        simpl in Hli. by rewrite Hli, Hk.
  - assert (Hm3 : memo s3 = None) by (simpl; done).
    assert (Hl3 : length (heap s3) = S (S L)).
    { simpl. rewrite !length_app. simpl. lia. }
    destruct (core_count H) as [c|] eqn:Hcc.
    2: { eapply wp_run; [by apply machineInformation_fails|].
         eapply call_post_stop with (reads := detection_reads H);
           simpl; try done.
         - etrans; [exact Hh|]. etrans; [exact Hp3|]. by apply prefix_app_r.
         - left. simpl. done.
         - by rewrite Ht.
         - right. auto. }
    eapply wp_run; [by apply machineInformation_first|].
    set (s4 := State (heap s3 ++ [CObj {[ "cores" := VNum (NInt c) ]}])
                     (Some (VRef (length (heap s3))))
                     (trace s3 ++ detection_reads H)).
    assert (Hrule : forall s5,
      heap s5 !! length (heap s3)
      = Some (CObj {[ "cores" := VNum (NInt c) ]}) ->
      memo s5 = Some (VRef (length (heap s3))) -> cache_rule H s0 s5).
    { intros s5 Hcell Hmemo. right. split; [done|].
      exists c, (length (heap s3)). repeat split; try done.
      rewrite Hl3. lia. }
    apply (jobs_rest _ L m); try done.
    + simpl. by apply lookup_kept.
    + simpl. by apply lookup_kept.
    + eapply call_post_stop with (reads := detection_reads H);
        simpl; try done.
      * etrans; [exact Hh|]. etrans; [exact Hp3|]. by apply prefix_app_r.
      * apply Hrule; [|done]. simpl. apply lookup_fresh.
      * by rewrite Ht.
      * right. split; [done|]. split; [done|]. by right.
    + intros li kvs cores N [= <-] Hli Hk Hj.
      simpl in Hli. rewrite lookup_fresh in Hli. injection Hli as <-.
      rewrite lookup_singleton_eq in Hk. injection Hk as <-.
      assert (Hcell : <[S L := CArr [VStr ("--jobs=" +:+ N)]]> (heap s4)
                      !! length (heap s3)
                      = Some (CObj {[ "cores" := VNum (NInt c) ]})).
      { rewrite list_lookup_insert_ne by lia. simpl. apply lookup_fresh. }
      apply (Hfin (detection_reads H) _ [VStr ("--jobs=" +:+ N)]);
        simpl; try done.
      * apply prefix_update; [|lia]. etrans; [exact Hp3|].
        by apply prefix_app_r.
      * by apply Hrule.
      * by rewrite Ht.
      * right. done.
      * apply list_lookup_insert_eq. rewrite !length_app. simpl. lia.
      * exists (NInt c), N. split; [|by rewrite <- Hmx].
        unfold cached_cores. simpl.
        simpl in Hcell. rewrite Hcell. by rewrite lookup_singleton_eq.
Qed.

Lemma make_post H arguments s :
  let args := param 1 arguments in
  let options := param 2 arguments in
  wp (make H arguments)
     (call_post H
        (fun c a op s' =>
           valid (heap s) args = true ->
           make_spawn (heap s) (options_of (heap s) args options)
             (given_items (heap s) args options) c a op s') s) s.
Proof.
  intros args options. unfold make. fold args options.
  unfold options_of, given_items. apply wp_bind.
  destruct (args_or_options_cases args options s)
    as [[Hr E]|[[Hr E]|E]]; (eapply wp_run; [exact E|]); rewrite ?Hr.
  - assert (Ho : is_object (heap s) args = true).
    { unfold reinterprets in Hr. by apply andb_true_iff in Hr as [_ ?]. }
    eapply wp_mono.
    { apply (make_resolved_post H (length arguments) (param 0 arguments)
               (VRef (length (heap s))) args s); simpl; try done.
      - by apply prefix_app_r.
      - left. destruct arguments; [done|]. simpl. lia. }
    intros o s' Hpost. eapply call_post_weaken; [exact Hpost|].
    simpl. rewrite lookup_fresh. unfold make_spawn, setting.
    rewrite settings_snoc; [|by destruct args as [| |b|n|t|l]].
    intros c a op Hs _. apply Hs.
    apply bool_decide_eq_true. rewrite length_app. simpl. lia.
  - apply make_resolved_post; try done.
    destruct arguments; [by right|]. left. simpl. lia.
  - by apply call_post_early.
Qed.

(** ** Every call *)

Lemma no_spawn_in_reads H :
  forallb (fun e => negb (is_spawn e)) (detection_reads H) = true.
Proof. unfold detection_reads. by destruct (isPlatform H "linux"). Qed.

Lemma spawned_inv H P s o s' cmd a op :
  call_post H P s o s' -> spawned s s' cmd a op ->
  o = exit_outcome cmd (child H (heap s') cmd a op) ∧ P cmd a op s'.
Proof.
  intros (_ & _ & reads & tail & Ht & Hr & Hs) (pre & Hpre & Hno).
  rewrite Ht in Hpre. apply app_inv_head in Hpre.
  destruct Hs as [[-> _]|(c' & a' & op' & -> & Ho & HP)].
  - exfalso. rewrite app_nil_r in Hpre.
    assert (Hsp : forallb (fun e => negb (is_spawn e)) reads = true).
    { destruct Hr as [->|(_ & -> & _)]; [done|apply no_spawn_in_reads]. }
    rewrite Hpre, forallb_app in Hsp. simpl in Hsp.
    by rewrite andb_false_r in Hsp.
  - apply app_inj_tail in Hpre as [_ [= -> -> ->]]. done.
Qed.

Lemma call_post_runner H P s o s' :
  call_post H P s o s' -> runner_rule H s o s'.
Proof.
  intros (_ & _ & reads & tail & Ht & Hr & Hs).
  assert (Hsp : forallb (fun e => negb (is_spawn e)) reads = true).
  { destruct Hr as [->|(_ & -> & _)]; [done|apply no_spawn_in_reads]. }
  destruct Hs as [[-> He]|(c & a & op & -> & Ho & _)].
  - left. split; [|done]. exists reads. by rewrite app_nil_r in Ht.
  - right. exists c, a, op. split; [|done]. by exists reads.
Qed.

Lemma memo_ok_kept H P s o s' :
  call_post H P s o s' -> memo_ok s -> memo_ok s'.
Proof.
  intros (Hp & Hc & _) Hok.
  destruct Hc as [E|(_ & c & l & Hcc & Hm & Hl & _)].
  - destruct Hok as [Hn|(c & Hc & Hle)].
    + left. congruence.
    + right. exists c. split; [|done]. by eapply cached_cores_kept.
  - right. exists c. split; [|by eapply core_count_floor].
    unfold cached_cores. by rewrite Hm, Hl, lookup_singleton_eq.
Qed.

Lemma exec_post H c s :
  wp (exec H c)
     (call_post H
        (fun cmd a op s' =>
           match c with
           | CallMake arguments =>
               valid (heap s) (param 1 arguments) = true ->
               make_spawn (heap s)
                 (options_of (heap s) (param 1 arguments) (param 2 arguments))
                 (given_items (heap s) (param 1 arguments)
                    (param 2 arguments)) cmd a op s'
           | _ => True
           end) s) s.
Proof.
  destruct c as [cwd cmd args options|cwd args options|cwd pf options|args];
    simpl.
  - eapply wp_mono; [apply runWithinEnvironment_post|].
    intros o s' Hpost. by eapply call_post_weaken.
  - apply configure_post.
  - apply patch_post.
  - apply make_post.
Qed.

Lemma exec_keeps_store H c s l x :
  heap s !! l = Some x -> heap (exec H c s).2 !! l = Some x.
Proof.
  intros Hl. eapply prefix_kept; [|exact Hl]. apply (exec_post H c s).
Qed.

(** C9: a call of [runWithinEnvironment], [configure], [patch] or [make]
    leaves the array it was given as [args] and the object it was given as
    [options.env] as they were: whatever the call's outcome, the cell holds
    afterwards what it held before. *)
Theorem caller_values_not_mutated (H : host) (c : call) (s : state)
    (l : loc) (x : cell) :
  call_args c = VRef l ∨ call_env (heap s) c = VRef l ->
  heap s !! l = Some x ->
  heap (exec H c s).2 !! l = Some x.
Proof. intros _. apply exec_keeps_store. Qed.

Lemma caller_values_not_mutated_witness :
  heap (exec sample_host (CallMake [VStr "/src"; VRef 0; VRef 2])
          sample_state).2 !! 0%nat
  = Some (CArr [VStr "all"; VStr "V=1"])
  ∧ heap (exec sample_host (CallMake [VStr "/src"; VRef 0; VRef 2])
            sample_state).2 !! 1%nat
    = Some (CObj {[ "CC" := VStr "gcc" ]}).
Proof.
  split.
  - apply (caller_values_not_mutated sample_host
             (CallMake [VStr "/src"; VRef 0; VRef 2]) sample_state 0);
      [left|]; reflexivity.
  - apply (caller_values_not_mutated sample_host
             (CallMake [VStr "/src"; VRef 0; VRef 2]) sample_state 1);
      [right|]; reflexivity.
Defined.

(** C2: for every call of [runWithinEnvironment] and of the three
    functions that end in it, with [logExec] as the specification describes
    it: when the call started a child that exited with code 0, the call
    returns the captured standard output; when the child exited with another
    code, the call throws an error with the message
    [Program exited with exit code <code>] that carries the code and both
    captured streams; and the call throws such an error only then.  The
    store in which the child ran is the store at the end of the call, since
    the spawn is the last action. *)
Theorem exit_code_contract (H : host) (c : call) (s : state) :
  let o := (exec H c s).1 in
  let s' := (exec H c s).2 in
  (forall cmd a op code out err,
     spawned s s' cmd a op ->
     child H (heap s') cmd a op = Exited code out err ->
     (code = 0 -> o = Ret (VStr out))
     ∧ (code <> 0 ->
        o = Throw (ExecutionError
                     ("Program exited with exit code " +:+ pretty code)
                     code out err)))
  ∧ (forall msg code out err,
       o = Throw (ExecutionError msg code out err) ->
       code <> 0
       ∧ msg = "Program exited with exit code " +:+ pretty code
       ∧ ∃ cmd a op, spawned s s' cmd a op
                     ∧ child H (heap s') cmd a op = Exited code out err).
Proof.
  intros o s'. assert (Hpost := exec_post H c s). unfold wp in Hpost.
  fold o s' in Hpost. split.
  - intros cmd a op code out err Hsp Hch.
    destruct (spawned_inv _ _ _ _ _ _ _ _ Hpost Hsp) as [Ho _].
    rewrite Hch in Ho. simpl in Ho. rewrite Ho.
    split; intros Hc.
    + by rewrite bool_decide_eq_true_2.
    + by rewrite bool_decide_eq_false_2.
  - intros msg code out err Ho.
    destruct (call_post_runner _ _ _ _ _ Hpost)
      as [[_ He]|(cmd & a & op & Hsp & Ho')].
    { by rewrite Ho in He. }
    rewrite Ho in Ho'.
    destruct (child H (heap s') cmd a op) as [code' out' err'|] eqn:Hch;
      simpl in Ho'; [|done].
    case_bool_decide as Hc; [done|].
    injection Ho' as -> -> -> ->.
    split; [done|]. split; [done|]. eauto.
Qed.

Lemma exit_code_contract_witness :
  (exec sample_host (CallPatch (VStr "/src") (VStr "fix.patch") VNull)
     sample_state).1
  = Throw (ExecutionError "Program exited with exit code 1" 1 ""
             "patch failed")
  ∧ (exec sample_host (CallMake [VStr "/src"]) sample_state).1
    = Ret (VStr "done").
Proof.
  split.
  - destruct (exit_code_contract sample_host
                (CallPatch (VStr "/src") (VStr "fix.patch") VNull)
                sample_state) as [P _].
    destruct (P (VStr "patch") (VRef 4%nat) (VRef 6%nat) 1 "" "patch failed")
      as [_ Q]; [exists []; split; reflexivity|reflexivity|].
    apply Q. done.
  - destruct (exit_code_contract sample_host (CallMake [VStr "/src"])
                sample_state) as [P _].
    destruct (P (VStr "make") (VRef 7%nat) (VRef 9%nat) 0 "done" "")
      as [Q _];
      [exists [EvRead "/proc/cpuinfo"]; split; reflexivity|reflexivity|].
    apply Q. done.
Defined.

(** C1: whenever [make] reaches the runner, the command is [make] and the
    argument list is a new array.  With [supportsParallelBuild] left at its
    default, [true], the array starts with [--jobs=N], where [N] is
    [min(coreCount + 1, maxParallelJobs)] for the cached core count, and goes
    on with the caller's arguments; with [supportsParallelBuild] false it
    holds the caller's arguments only; with [maxParallelJobs] equal to 1 the
    flag is [--jobs=1], whatever the core count. *)
Theorem make_jobs_flag (H : host) (arguments : list value) (s : state)
    (cmd a op : value) :
  let args := param 1 arguments in
  let options := options_of (heap s) args (param 2 arguments) in
  let given := given_items (heap s) args (param 2 arguments) in
  let supportsParallelBuild :=
    setting (heap s) options "supportsParallelBuild" (VBool true) in
  let maxParallelJobs :=
    setting (heap s) options "maxParallelJobs" (VNum NInf) in
  let s' := (make H arguments s).2 in
  valid (heap s) args = true ->
  spawned s s' cmd a op ->
  cmd = VStr "make"
  ∧ ∃ l items,
      a = VRef l ∧ heap s' !! l = Some (CArr items)
      ∧ (supportsParallelBuild = VBool true ->
         ∃ cores N,
           cached_cores s' = Some cores
           ∧ job_count cores maxParallelJobs = Some N
           ∧ items = VStr ("--jobs=" +:+ N) :: given)
      ∧ (supportsParallelBuild = VBool false -> items = given)
      ∧ (supportsParallelBuild = VBool true ->
         maxParallelJobs = VNum (NInt 1) -> memo_ok s ->
         items = VStr "--jobs=1" :: given).
Proof.
  intros args options given sp mx s' Hv Hsp.
  assert (Hpost := make_post H arguments s). unfold wp in Hpost.
  fold s' in Hpost.
  assert (Hok : memo_ok s -> memo_ok s') by (by eapply memo_ok_kept).
  destruct (spawned_inv _ _ _ _ _ _ _ _ Hpost Hsp) as [_ Hmk].
  destruct (Hmk Hv) as (-> & l & items & -> & Hl & Hitems).
  fold args options given sp mx in Hitems.
  split; [done|]. exists l, items. split; [done|]. split; [done|].
  split; [|split].
  - intros E. by rewrite E in Hitems.
  - intros E. by rewrite E in Hitems.
  - intros E Emx Hmemo. rewrite E in Hitems. simpl in Hitems.
    destruct Hitems as (cores & N & Hc & Hj & ->).
    destruct (Hok Hmemo) as [Hn|(c & Hc' & Hle)].
    { unfold cached_cores in Hc. by rewrite Hn in Hc. }
    rewrite Hc in Hc'. injection Hc' as ->.
    rewrite Emx in Hj. unfold job_count in Hj. simpl in Hj.
    rewrite Z.min_r in Hj by lia. by injection Hj as <-.
Qed.

Lemma make_jobs_flag_witness :
  heap (make sample_host [VStr "/src"; VRef 0; VRef 2] sample_state).2
    !! 7%nat
  = Some (CArr [VStr "--jobs=1"; VStr "all"; VStr "V=1"]).
Proof.
  destruct (make_jobs_flag sample_host [VStr "/src"; VRef 0; VRef 2]
              sample_state (VStr "make") (VRef 7%nat) (VRef 9%nat))
    as (_ & l & items & E & Hl & _ & _ & Hone);
    [reflexivity|exists [EvRead "/proc/cpuinfo"]; split; reflexivity|].
  injection E as <-. rewrite Hl. f_equal. f_equal.
  apply Hone; [reflexivity|reflexivity|by left].
Defined.

(** C5: the first detection of a process returns an object whose [cores]
    is the core count of the specification: on a Linux host the number of
    lines of [/proc/cpuinfo] that match [/^processor\s+:/], on any other
    host 2, and at least 2 in every case. *)
Theorem core_count_detection (H : host) (s : state) (c : Z) :
  memo s = None ->
  core_count H = Some c ->
  let s' := (_machineInformation H s).2 in
  (∃ l, (_machineInformation H s).1 = Ret (VRef l)
        ∧ get_prop (VRef l) "cores" s' = (Ret (VNum (NInt c)), s'))
  ∧ cached_cores s' = Some (NInt c)
  ∧ 2 <= c
  ∧ (isPlatform H "linux" = false -> c = 2)
  ∧ (isPlatform H "linux" = true ->
     ∃ lines, file_lines H "/proc/cpuinfo" = Some lines
              ∧ c = Z.max (matching_lines lines) 2).
Proof.
  intros Hm Hc s'. unfold s'.
  rewrite (machineInformation_first _ _ _ Hm Hc). simpl.
  split; [|split; [|split; [|split]]].
  - exists (length (heap s)). split; [done|].
    unfold get_prop, deref. unfold_m. simpl.
    by rewrite lookup_fresh, lookup_singleton_eq.
  - unfold cached_cores. simpl.
    by rewrite lookup_fresh, lookup_singleton_eq.
  - by eapply core_count_floor.
  - unfold core_count in Hc. intros E. rewrite E in Hc. by injection Hc.
  - unfold core_count in Hc. intros E. rewrite E in Hc.
    destruct (file_lines H "/proc/cpuinfo") as [lines|]; [|done].
    exists lines. split; [done|]. by injection Hc.
Qed.

Lemma core_count_detection_witness :
  cached_cores (_machineInformation sample_host sample_state).2
  = Some (NInt 3)
  ∧ cached_cores (_machineInformation other_host sample_state).2
    = Some (NInt 2).
Proof.
  split.
  - apply (core_count_detection sample_host sample_state 3); reflexivity.
  - apply (core_count_detection other_host sample_state 2); reflexivity.
Defined.

(** ** The cache *)

Lemma cpuinfo_reads_spawn tr tail o :
  (tail = [] ∧ early o) ∨ (∃ cmd a op, tail = [EvSpawn cmd a op]) ->
  cpuinfo_reads (tr ++ tail) = cpuinfo_reads tr.
Proof.
  unfold cpuinfo_reads. rewrite filter_app, length_app.
  intros [[-> _]|(cmd & a & op & ->)]; simpl; lia.
Qed.

Lemma exec_cached H c s v :
  memo s = Some v ->
  memo (exec H c s).2 = Some v
  ∧ heap s `prefix_of` heap (exec H c s).2
  ∧ cpuinfo_reads (trace (exec H c s).2) = cpuinfo_reads (trace s).
Proof.
  intros Hm.
  destruct (exec_post H c s) as (Hp & Hc & reads & tail & Ht & Hr & Hs).
  split; [|split; [done|]].
  - destruct Hc as [E|(E & _)]; congruence.
  - destruct Hr as [->|[E _]]; [|congruence].
    rewrite Ht. simpl. eapply cpuinfo_reads_spawn.
    destruct Hs as [?|(cmd & a & op & ? & _)]; [by left|right; eauto].
Qed.

Lemma run_calls_cached cs s v :
  memo s = Some v ->
  memo (run_calls cs s) = Some v
  ∧ heap s `prefix_of` heap (run_calls cs s)
  ∧ cpuinfo_reads (trace (run_calls cs s)) = cpuinfo_reads (trace s).
Proof.
  revert s. induction cs as [|[H c] cs IH]; intros s Hm; simpl; [done|].
  destruct (exec_cached H c s v Hm) as (Hm1 & Hp1 & Hr1).
  destruct (IH _ Hm1) as (Hm2 & Hp2 & Hr2).
  split; [done|]. split; [by etrans|congruence].
Qed.

Lemma machineInformation_returns H s v s1 :
  _machineInformation H s = (Ret v, s1) ->
  memo s1 = Some v
  ∧ (cpuinfo_reads (trace s1) <= cpuinfo_reads (trace s) + 1)%nat.
Proof.
  destruct (memo s) as [w|] eqn:Hm.
  - rewrite (machineInformation_cached _ _ _ Hm). intros [= <- <-].
    split; [done|lia].
  - destruct (core_count H) as [c|] eqn:Hc.
    + rewrite (machineInformation_first _ _ _ Hm Hc). intros [= <- <-].
      split; [done|]. simpl. unfold cpuinfo_reads, detection_reads.
      rewrite filter_app, length_app.
      destruct (isPlatform H "linux"); simpl; lia.
    + by rewrite (machineInformation_fails _ _ Hm Hc).
Qed.

Lemma cpuinfo_reads_detection H tr tail o :
  (tail = [] ∧ early o) ∨ (∃ cmd a op, tail = [EvSpawn cmd a op]) ->
  (cpuinfo_reads (tr ++ detection_reads H ++ tail) <= cpuinfo_reads tr + 1)%nat.
Proof.
  intros Ht. rewrite app_assoc, (cpuinfo_reads_spawn _ _ _ Ht).
  unfold cpuinfo_reads, detection_reads. rewrite filter_app, length_app.
  destruct (isPlatform H "linux"); simpl; lia.
Qed.

Lemma exec_reads_once H c s :
  readable H = true ->
  (memo (exec H c s).2 = memo s
   ∧ cpuinfo_reads (trace (exec H c s).2) = cpuinfo_reads (trace s))
  ∨ (memo s = None ∧ memo (exec H c s).2 <> None
     ∧ (cpuinfo_reads (trace (exec H c s).2)
        <= cpuinfo_reads (trace s) + 1)%nat).
Proof.
  intros Hre. unfold readable in Hre.
  destruct (exec_post H c s) as (Hp & Hc & reads & tail & Ht & Hr & Hs).
  assert (Htail : (tail = [] ∧ early (exec H c s).1)
                  ∨ (∃ cmd a op, tail = [EvSpawn cmd a op])).
  { destruct Hs as [?|(cmd & a & op & ? & _)]; [by left|right; eauto]. }
  destruct Hr as [->|(Hn & -> & Hd)].
  - simpl in Ht. rewrite Ht, (cpuinfo_reads_spawn _ _ _ Htail).
    destruct Hc as [E|(Hn & k & l & _ & Hm & _)]; [by left|].
    right. split; [done|]. split; [congruence|lia].
  - right. split; [done|]. split.
    + destruct Hd as [Hd|Hd]; [by rewrite Hd in Hre|done].
    + rewrite Ht. by eapply cpuinfo_reads_detection.
Qed.

Lemma run_calls_reads_once cs s :
  all_readable cs = true ->
  (cpuinfo_reads (trace (run_calls cs s)) <= cpuinfo_reads (trace s) + 1)%nat.
Proof.
  revert s. induction cs as [|[H c] cs IH]; intros s Hall; simpl; [lia|].
  simpl in Hall. apply andb_true_iff in Hall as [Hre Hall].
  destruct (exec_reads_once H c s Hre) as [[Hm Hr]|(Hn & Hm & Hr)].
  - rewrite <- Hr. by apply IH.
  - destruct (memo (exec H c s).2) as [v|] eqn:E; [|done].
    destruct (run_calls_cached cs _ v E) as (_ & _ & Hr2). lia.
Qed.

(** C10: [runWithinEnvironment] with [null] as [args] is the same
    computation as with [args] omitted; when it starts a child, the
    arguments it passes are a new empty array, and it starts one whenever
    [options || {}] is a plain object. *)
Theorem null_args_like_omitted (H : host) (cwd cmd options : value)
    (s : state) :
  let s' := (runWithinEnvironment H cwd cmd VNull options s).2 in
  runWithinEnvironment H cwd cmd VNull options s
  = runWithinEnvironment H cwd cmd VUndefined options s
  ∧ (forall c a op,
       spawned s s' c a op ->
       c = cmd ∧ ∃ l, a = VRef l ∧ heap s' !! l = Some (CArr []))
  ∧ (usable (heap s) options = true -> ∃ a op, spawned s s' cmd a op).
Proof.
  intros s'. split; [|split].
  - unfold runWithinEnvironment, args_or_options. unfold_m.
    by destruct (isUndefined options).
  - intros c a op Hsp.
    assert (Hpost := runWithinEnvironment_post H cwd cmd VNull options s).
    unfold wp in Hpost. fold s' in Hpost.
    destruct (spawned_inv _ _ _ _ _ _ _ _ Hpost Hsp) as [_ [-> Ha]].
    split; [done|].
    assert (Hk : kept_args (heap s) VNull options = None).
    { unfold kept_args, reinterprets. by rewrite andb_false_r. }
    rewrite Hk in Ha. destruct Ha as (l & -> & Hl & _). eauto.
  - intros Hu. unfold s', runWithinEnvironment. unfold_m.
    rewrite args_or_options_keeps; try done.
    2: { unfold reinterprets. by rewrite andb_false_r. }
    rewrite run_resolved_eq by done. simpl.
    eexists _, _. exists []. simpl. split; done.
Qed.

Lemma null_args_like_omitted_witness :
  ∃ a op,
    spawned sample_state
      (runWithinEnvironment sample_host (VStr "/src") (VStr "make") VNull
         (VRef 2) sample_state).2 (VStr "make") a op.
Proof.
  apply (null_args_like_omitted sample_host (VStr "/src") (VStr "make")
           (VRef 2) sample_state).
  reflexivity.
Defined.

(** ** [make] reaches the runner *)

Lemma exit_outcome_not_early cmd r : ¬ early (exit_outcome cmd r).
Proof.
  destruct r as [code out err|]; simpl; [|tauto].
  case_bool_decide; simpl; tauto.
Qed.

Lemma jobs_run (L li : nat) (m kvs : gmap string value) cores N s4 :
  heap s4 !! li = Some (CObj kvs) ->
  kvs !! "cores" = Some (VNum cores) ->
  safe (number_add cores (NInt 1)) = true ->
  heap s4 !! L = Some (CObj m) ->
  heap s4 !! S L = Some (CArr []) ->
  job_count cores (default VUndefined (m !! "maxParallelJobs")) = Some N ->
  (cores ← get_prop (VRef li) "cores";
   n ← js_plus cores (VNum (NInt 1));
   maxParallelJobs ← get_prop (VRef L) "maxParallelJobs";
   j ← Math_min n maxParallelJobs;
   flag ← template j;
   push (VRef (S L)) (VStr ("--jobs=" +:+ flag))) s4
  = (Ret tt,
     set_heap (<[S L := CArr [VStr ("--jobs=" +:+ N)]]> (heap s4)) s4).
Proof.
  intros Hli Hk Hs HL HA Hj. unfold job_count in Hj.
  destruct (to_number (default VUndefined (m !! "maxParallelJobs")))
    as [nm|] eqn:Hnm; [|done].
  unfold get_prop, deref, js_plus, Math_min, template, push. unfold_m.
  rewrite Hli, Hk. simpl. rewrite Hs, HL, Hnm. simpl. rewrite Hj.
  unfold ret. by rewrite HA.
Qed.


Lemma run_not_early H cwd cmd args options s :
  usable (heap s) options = true -> isUndefined options = false ->
  ¬ early (runWithinEnvironment H cwd cmd args options s).1.
Proof.
  intros Hu Hd. unfold runWithinEnvironment, args_or_options. rewrite Hd.
  unfold_m. simpl.
  assert (E := run_resolved_eq H cwd cmd args options s Hu).
  unfold_m. rewrite E.
  destruct (nullish args); apply exit_outcome_not_early.
Qed.

Lemma toArray_run args s :
  valid (heap s) args = true -> is_object (heap s) args = false ->
  toArray args s
  = (Ret (VRef (length (heap s))),
     set_heap (heap s ++ [CArr (items_of (heap s) args)]) s).
Proof.
  intros Hv Ho. destruct (toArray_cases args s) as [E|E]; [done|].
  exfalso. destruct args as [| |b|n|t|l]; try done. simpl in *.
  apply bool_decide_eq_true in Hv.
  destruct (lookup_lt_is_Some_2 _ _ Hv) as [c Hc].
  unfold toArray, deref in E. unfold_m. rewrite Hc in *.
  by destruct c.
Qed.

Lemma make_resolved_not_early H n cwd args options s c N :
  usable (heap s) options = true ->
  valid (heap s) args = true -> is_object (heap s) args = false ->
  (memo s = None ∧ core_count H = Some c) ∨ cached_cores s = Some (NInt c) ->
  safe (NInt (c + 1)) = true ->
  job_count (NInt c) (setting (heap s) options "maxParallelJobs" (VNum NInf))
  = Some N ->
  wp (make_resolved H n cwd args options) (fun o _ => ¬ early o) s.
Proof.
  intros Hu Hv Ho Hcores Hsafe Hj. unfold make_resolved. apply wp_bind.
  eapply wp_run; [by apply opts_run|].
  set (D := {[ "supportsParallelBuild" := VBool true;
               "maxParallelJobs" := VNum NInf ]} : gmap string value).
  set (m := defaults (settings (heap s) options) D).
  set (L := length (heap s)).
  apply wp_bind. unfold new_array. eapply wp_run; [reflexivity|].
  simpl. rewrite length_app. simpl. rewrite Nat.add_1_r. fold L.
  set (s3 := set_heap ((heap s ++ [CObj m]) ++ [CArr []])
               (set_heap (heap s ++ [CObj m]) s)).
  assert (HL3 : heap s3 !! L = Some (CObj m)).
  { simpl. apply lookup_kept, lookup_fresh. }
  assert (HA3 : heap s3 !! S L = Some (CArr [])).
  { simpl. replace (S L) with (length (heap s ++ [CObj m])).
    - apply lookup_fresh.
    - rewrite length_app. simpl. lia. }
  assert (Hp3 : heap s `prefix_of` heap s3).
  { simpl. rewrite <- app_assoc. by apply prefix_app_r. }
  assert (Hmx : default VUndefined (m !! "maxParallelJobs")
                = setting (heap s) options "maxParallelJobs" (VNum NInf))
    by (by apply setting_defaults).
  assert (Hfin : forall s5 items,
    heap s `prefix_of` heap s5 -> heap s5 !! L = Some (CObj m) ->
    heap s5 !! S L = Some (CArr items) ->
    wp ((if bool_decide (0 < n)%nat then
           a ← toArray args; concat (VRef (S L)) a
         else mret (VRef (S L)))
        ≫= fun makeArgs =>
             runWithinEnvironment H cwd (VStr "make") makeArgs (VRef L))
       (fun o _ => ¬ early o) s5).
  { intros s5 items Hp5 HL5 HA5.
    assert (Hrun : forall a s6,
      heap s6 !! L = Some (CObj m) ->
      wp (runWithinEnvironment H cwd (VStr "make") a (VRef L))
         (fun o _ => ¬ early o) s6).
    { intros a s6 HL6. unfold wp. apply run_not_early; [|done].
      simpl. by rewrite HL6. }
    apply wp_bind. case_bool_decide.
    - apply wp_bind. eapply wp_run.
      { apply toArray_run.
        - destruct args as [| |b|k|t|l]; try done. simpl in *.
          apply bool_decide_eq_true. apply bool_decide_eq_true in Hv.
          apply prefix_length in Hp5. lia.
        - destruct args as [| |b|k|t|l]; try done. simpl in *.
          apply bool_decide_eq_true in Hv.
          destruct (lookup_lt_is_Some_2 _ _ Hv) as [x Hx].
          rewrite (prefix_kept _ _ _ _ Hp5 Hx). by rewrite Hx in Ho. }
      eapply wp_run.
      { eapply concat_run; simpl.
        - by apply lookup_kept.
        - apply lookup_fresh. }
      apply Hrun. simpl. by do 2 apply lookup_kept.
    - apply wp_ret. by apply Hrun. }
  apply wp_bind. eapply wp_run; [by apply get_prop_at|].
  apply wp_bind.
  destruct (truthy (default VUndefined (m !! "supportsParallelBuild"))).
  2: { apply wp_ret. by eapply Hfin. }
  assert (Hupd : forall (h : list cell) x,
            heap s `prefix_of` h -> heap s `prefix_of` <[S L := x]> h).
  { intros h x Hp. apply prefix_update; [done|]. unfold L. lia. }
  destruct Hcores as [[Hm Hc]|Hc].
  - apply wp_bind. eapply wp_run; [by apply machineInformation_first|].
    eapply wp_run.
    { eapply (jobs_run L (length (heap s3)) m
                {[ "cores" := VNum (NInt c) ]} (NInt c) N);
        [simpl; apply lookup_fresh|by rewrite lookup_singleton_eq|done
        |simpl; by apply lookup_kept|simpl; by apply lookup_kept
        |by rewrite Hmx]. }
    eapply Hfin; simpl.
    + apply Hupd. etrans; [exact Hp3|]. by apply prefix_app_r.
    + rewrite list_lookup_insert_ne by lia. by apply lookup_kept.
    + apply list_lookup_insert_eq. rewrite !length_app. simpl. lia.
  - unfold cached_cores in Hc.
    destruct (memo s) as [[| |b|k|t|li]|] eqn:Hm; try done.
    destruct (heap s !! li) as [[xs|kvs]|] eqn:Hli; try done.
    destruct (kvs !! "cores") as [[| |b|k|t|l']|] eqn:Hk; try done.
    injection Hc as ->.
    assert (Hli3 : heap s3 !! li = Some (CObj kvs)) by (by eapply prefix_kept).
    apply wp_bind. eapply wp_run; [by apply machineInformation_cached|].
    eapply wp_run.
    { eapply (jobs_run L li m kvs (NInt c) N);
        [done|done|done|done|done|by rewrite Hmx]. }
    eapply Hfin; simpl.
    + by apply Hupd.
    + rewrite list_lookup_insert_ne by lia. by apply lookup_kept, lookup_fresh.
    + apply list_lookup_insert_eq. rewrite !length_app. simpl. lia.
Qed.

(** X19: [make] does reach the runner: when the value used as options is falsy
    or a plain object, the value used as arguments is not a plain object,
    the core count [c] is cached or can be detected, and the job count can
    be printed. *)
Lemma make_reaches_runner H arguments s c N :
  let args := param 1 arguments in
  let options := options_of (heap s) args (param 2 arguments) in
  valid (heap s) args = true ->
  usable (heap s) options = true ->
  reinterprets (heap s) args (param 2 arguments) = true
  ∨ is_object (heap s) args = false ->
  (memo s = None ∧ core_count H = Some c) ∨ cached_cores s = Some (NInt c) ->
  safe (NInt (c + 1)) = true ->
  job_count (NInt c) (setting (heap s) options "maxParallelJobs" (VNum NInf))
  = Some N ->
  ∃ a op, spawned s (make H arguments s).2 (VStr "make") a op.
Proof.
  intros args options Hv Hu Hobj Hcores Hsafe Hj.
  assert (Hne : ¬ early (make H arguments s).1).
  { change (wp (make H arguments) (fun o _ => ¬ early o) s).
    unfold make. fold args. apply wp_bind.
    unfold options, options_of in Hu, Hj.
    destruct (reinterprets (heap s) args (param 2 arguments)) eqn:Hr.
    - eapply wp_run; [by apply args_or_options_fires|].
      assert (Ho : is_object (heap s) args = true).
      { unfold reinterprets in Hr. by apply andb_true_iff in Hr as [_ ?]. }
      eapply (make_resolved_not_early _ _ _ _ _ _ c N); simpl.
      + by apply usable_snoc.
      + apply bool_decide_eq_true. rewrite length_app. simpl. lia.
      + by rewrite lookup_fresh.
      + destruct Hcores as [?|Hc]; [by left|right].
        eapply cached_cores_kept; [..|exact Hc]; simpl; [|done].
        by apply prefix_app_r.
      + done.
      + unfold setting. by rewrite settings_snoc.
    - eapply wp_run; [by apply args_or_options_keeps|].
      destruct Hobj as [?|Ho]; [done|].
      by eapply (make_resolved_not_early _ _ _ _ _ _ c N). }
  destruct (make_post H arguments s)
    as (_ & _ & reads & tail & Ht & Hr & [[_ He]|(cmd & a & op & -> & _ & HP)]).
  { done. }
  destruct (HP Hv) as [-> _]. exists a, op, reads. split; [done|].
  destruct Hr as [->|(_ & -> & _)]; [done|apply no_spawn_in_reads].
Qed.

(** ** The invariant of the cache, and runs on the sample host *)

Lemma run_calls_memo_ok cs s : memo_ok s -> memo_ok (run_calls cs s).
Proof.
  revert s. induction cs as [|[H c] cs IH]; intros s Hok; simpl; [done|].
  apply IH. eapply memo_ok_kept; [|exact Hok]. apply (exec_post H c s).
Qed.

Lemma fresh_process_memo_ok cs h :
  memo_ok (run_calls cs (State h None [])).
Proof. apply run_calls_memo_ok. by left. Qed.

(** From a state of a process, a detection that returns leaves a cached
    core count of at least 2. *)
Lemma detection_at_least_two H s v s' :
  memo_ok s -> _machineInformation H s = (Ret v, s') ->
  ∃ c, cached_cores s' = Some (NInt c) ∧ 2 <= c.
Proof.
  intros Hok E. destruct (memo s) as [w|] eqn:Hm.
  - rewrite (machineInformation_cached _ _ _ Hm) in E.
    injection E as <- <-. destruct Hok as [Hn|Hc]; [congruence|done].
  - destruct (core_count H) as [c|] eqn:Hc.
    + rewrite (machineInformation_first _ _ _ Hm Hc) in E.
      injection E as <- <-. exists c. split; [|by eapply core_count_floor].
      unfold cached_cores. simpl.
      by rewrite lookup_fresh, lookup_singleton_eq.
    + by rewrite (machineInformation_fails _ _ Hm Hc) in E.
Qed.

Lemma make_example :
  let r := make sample_host [VStr "/src"; VRef 0; VRef 2] sample_state in
  r.1 = Ret (VStr "done")
  ∧ trace r.2 = [EvRead "/proc/cpuinfo";
                 EvSpawn (VStr "make") (VRef 7) (VRef 9)]
  ∧ heap r.2 !! 7%nat = Some (CArr [VStr "--jobs=1"; VStr "all"; VStr "V=1"])
  ∧ cached_cores r.2 = Some (NInt 3).
Proof. repeat split. Qed.

Lemma make_defaults_example :
  let r := make sample_host [VStr "/src"] sample_state in
  r.1 = Ret (VStr "done")
  ∧ heap r.2 !! 7%nat = Some (CArr [VStr "--jobs=4"]).
Proof. repeat split. Qed.

Lemma make_text_example :
  let r := make other_host [VStr "/src"; VStr "all"; VNull] sample_state in
  heap r.2 !! 7%nat
  = Some (CArr [VStr "--jobs=3"; VStr "a"; VStr "l"; VStr "l"]).
Proof. reflexivity. Qed.

Lemma patch_example :
  let r := patch sample_host (VStr "/src") (VStr "fix.patch") (VRef 2)
             sample_state in
  r.1 = Throw (ExecutionError "Program exited with exit code 1" 1 ""
                 "patch failed")
  ∧ trace r.2 = [EvSpawn (VStr "patch") (VRef 4) (VRef 6)]
  ∧ heap r.2 !! 4%nat
    = Some (CArr [VStr "-p1"; VStr "-i"; VStr "fix.patch"]).
Proof. repeat split. Qed.

Lemma configure_example :
  let r := configure sample_host (VStr "/src") (VRef 2) VUndefined
             sample_state in
  r.1 = Ret (VStr "configured")
  ∧ trace r.2 = [EvSpawn (VStr "/src/config") (VRef 3) (VRef 5)]
  ∧ heap r.2 !! 3%nat = Some (CArr []).
Proof. repeat split. Qed.

(** ** The runner's options and arguments *)

Lemma settings_env_alias h options :
  usable (h ++ [CObj ∅]) options = true ->
  settings (h ++ [CObj ∅]) options = settings h options.
Proof.
  destruct options as [| |b|n|t|l]; simpl; try done.
  destruct (decide (l < length h)%nat) as [Hl|Hl].
  - destruct (lookup_lt_is_Some_2 _ _ Hl) as [x E].
    by rewrite (lookup_kept _ _ _ _ E), E.
  - destruct (decide (l = length h)) as [->|Hne].
    + rewrite lookup_fresh. by rewrite lookup_ge_None_2.
    + rewrite !lookup_ge_None_2; [done|lia|].
      rewrite length_app. simpl. lia.
Qed.

Lemma lookup_second (h : list cell) a b k :
  (h ++ a :: b :: k) !! S (length h) = Some b.
Proof.
  replace (S (length h)) with (length h + 1)%nat by lia.
  by rewrite lookup_past.
Qed.

Lemma lookup_third (h : list cell) a b c k :
  (h ++ a :: b :: c :: k) !! S (S (length h)) = Some c.
Proof.
  replace (S (S (length h))) with (length h + 2)%nat by lia.
  by rewrite lookup_past.
Qed.

Lemma run_resolved_detail H cwd cmd args options s :
  wp (run_resolved H cwd cmd args options)
     (spawn_detail H cwd cmd (settings (heap s) options)
        (if nullish args then None else Some args) s) s.
Proof.
  unfold wp. rewrite run_resolved_env.
  destruct (usable (heap s ++ [CObj ∅]) options) eqn:Hu.
  2: { split; [by apply prefix_app_r|]. split; [done|]. by left. }
  rewrite (settings_env_alias _ _ Hu).
  destruct (nullish args); unfold logExec, log, set_heap; simpl.
  - split; [by apply prefix_app_r|]. split; [done|]. right.
    exists (VRef (S (S (length (heap s))))), (length (heap s)),
           (S (length (heap s))).
    split; [done|]. split; [done|]. split; [lia|]. split; [lia|].
    split; [by apply list_lookup_middle|].
    split; [apply lookup_second|].
    exists (S (S (length (heap s)))). split; [done|]. split; [|lia].
    apply lookup_third.
  - split; [by apply prefix_app_r|]. split; [done|]. right.
    exists args, (length (heap s)), (S (length (heap s))).
    split; [done|]. split; [done|]. split; [lia|]. split; [lia|].
    split; [by apply list_lookup_middle|].
    split; [|done]. apply lookup_second.
Qed.

(** The detail of a call that went on from [s1], reached from [s] by
    allocations only. *)
Lemma spawn_detail_rebase H cwd cmd kvs kept kept1 s s1 o s' :
  heap s `prefix_of` heap s1 -> memo s1 = memo s -> trace s1 = trace s ->
  (forall a, heap s1 `prefix_of` heap s' ->
             match kept1 with
             | Some v => a = v
             | None => ∃ l, a = VRef l ∧ heap s' !! l = Some (CArr [])
                            ∧ (length (heap s1) <= l)%nat
             end ->
             match kept with
             | Some v => a = v
             | None => ∃ l, a = VRef l ∧ heap s' !! l = Some (CArr [])
                            ∧ (length (heap s) <= l)%nat
             end) ->
  spawn_detail H cwd cmd kvs kept1 s1 o s' ->
  spawn_detail H cwd cmd kvs kept s o s'.
Proof.
  intros Hp Hm Ht Hk (Hp' & Hm' & Hd).
  split; [by etrans|]. apply prefix_length in Hp.
  split; [congruence|].
  destruct Hd as [[-> Htr]|(a & le & lo & Htr & Ho & Hle & Hlo & He & Hop & Ha)].
  - left. split; [done|congruence].
  - right. exists a, le, lo. rewrite <- Ht.
    repeat split; try done; try lia. by apply Hk.
Qed.

Lemma runWithinEnvironment_detail H cwd cmd args options s :
  wp (runWithinEnvironment H cwd cmd args options)
     (spawn_detail H cwd cmd
        (settings (heap s) (options_of (heap s) args options))
        (kept_args (heap s) args options) s) s.
Proof.
  unfold runWithinEnvironment. apply wp_bind.
  unfold options_of, kept_args.
  destruct (args_or_options_cases args options s)
    as [[Hr E]|[[Hr E]|E]]; (eapply wp_run; [exact E|]); rewrite ?Hr.
  - assert (Ho : is_object (heap s) args = true).
    { unfold reinterprets in Hr. by apply andb_true_iff in Hr as [_ ?]. }
    eapply wp_mono; [apply run_resolved_detail|]. intros o s' Hd.
    simpl in Hd. rewrite settings_snoc in Hd by (by destruct args).
    eapply spawn_detail_rebase; [..|exact Hd]; simpl; try done.
    + by apply prefix_app_r.
    + intros a Hp' ->. exists (length (heap s)). split; [done|]. split; [|lia].
      eapply prefix_kept; [exact Hp'|]. apply lookup_fresh.
  - apply run_resolved_detail.
  - split; [done|]. split; [done|]. by left.
Qed.

Lemma patch_detail H cwd patchFile options s :
  wp (patch H cwd patchFile options)
     (spawn_detail H cwd (VStr "patch")
        (defaults (settings (heap s) options)
           {[ "patchLevel" := VNum (NInt 0) ]})
        (Some (VRef (S (length (heap s))))) s) s.
Proof.
  unfold patch. apply wp_bind.
  destruct (usable (heap s) options) eqn:Hu.
  2: { eapply wp_run; [by apply opts_beyond|].
       split; [done|]. split; [done|]. by left. }
  eapply wp_run; [by apply opts_run|].
  set (m := defaults (settings (heap s) options)
              {[ "patchLevel" := VNum (NInt 0) ]}).
  apply wp_bind. eapply wp_run; [apply get_prop_fresh|].
  apply wp_bind. apply wp_lift.
  destruct (to_text _) as [p|].
  2: { split; [by apply prefix_app_r|]. split; [done|]. by left. }
  apply wp_bind. unfold new_array. eapply wp_run; [reflexivity|].
  eapply wp_mono; [apply runWithinEnvironment_detail|].
  intros o s' Hd. simpl in Hd.
  rewrite length_app in Hd. simpl in Hd. rewrite Nat.add_1_r in Hd.
  unfold options_of, kept_args, reinterprets in Hd. simpl in Hd.
  rewrite (lookup_kept _ _ _ _ (lookup_fresh _ _)) in Hd.
  eapply spawn_detail_rebase; [..|exact Hd]; simpl; try done.
  rewrite <- app_assoc. by apply prefix_app_r.
Qed.

Lemma find_detail H cwd s :
  _findConfigureScript H cwd s
  = (match cwd with
     | VStr dir =>
         match first_existing H dir with
         | Some script => Ret (VStr (path_join H dir script))
         | None => Throw (JsError
                            ("Cannot find any of configure, config under "
                             +:+ dir))
         end
     | _ => Throw JsTypeError
     end, s).
Proof.
  destruct cwd as [| |b|n|t|l]; try done.
  destruct (first_existing H t) as [script|] eqn:E.
  - by apply find_script.
  - by apply find_no_script.
Qed.

Lemma configure_detail_holds H cwd args options s :
  wp (configure H cwd args options)
     (configure_detail H cwd args options s) s.
Proof.
  assert (Hstop : forall s1 o,
    heap s `prefix_of` heap s1 -> memo s1 = memo s -> trace s1 = trace s ->
    match cwd with
    | VStr dir =>
        match first_existing H dir with
        | Some _ => o = Beyond
        | None => o = Beyond
                  ∨ o = Throw (JsError
                                 ("Cannot find any of configure, config under "
                                  +:+ dir))
        end
    | _ => o = Beyond ∨ o = Throw JsTypeError
    end ->
    configure_detail H cwd args options s o s1).
  { intros s1 o Hp Hm Ht Ho. unfold configure_detail.
    destruct cwd as [| |b|n|t|l]; try done.
    destruct (first_existing H t); [|done].
    split; [done|]. split; [done|]. left. done. }
  unfold configure. apply wp_bind.
  destruct (args_or_options_cases args options s)
    as [[Hr E]|[[Hr E]|E]]; (eapply wp_run; [exact E|]).
  - assert (Ho : is_object (heap s) args = true).
    { unfold reinterprets in Hr. by apply andb_true_iff in Hr as [_ ?]. }
    unfold configure_resolved. apply wp_bind.
    eapply wp_run; [apply find_detail|].
    destruct cwd as [| |b|n|dir|l];
      try (apply Hstop; simpl; [by apply prefix_app_r|done|done|by right]).
    destruct (first_existing H dir) as [script|] eqn:Hf.
    2: { apply Hstop; simpl; [by apply prefix_app_r|done|done|by right]. }
    eapply wp_mono; [apply runWithinEnvironment_detail|].
    intros o s' Hd. unfold configure_detail. rewrite Hf.
    unfold options_of, kept_args in *. rewrite Hr.
    assert (Hr1 : reinterprets (heap s ++ [CArr []])
                    (VRef (length (heap s))) args = false).
    { unfold reinterprets. by destruct args. }
    simpl in Hd. rewrite Hr1 in Hd. simpl in Hd.
    rewrite settings_snoc in Hd by (by destruct args).
    eapply spawn_detail_rebase; [..|exact Hd]; simpl; try done.
    + by apply prefix_app_r.
    + intros a Hp' ->. exists (length (heap s)). split; [done|].
      split; [|lia]. eapply prefix_kept; [exact Hp'|]. apply lookup_fresh.
  - unfold configure_resolved. apply wp_bind.
    eapply wp_run; [apply find_detail|].
    destruct cwd as [| |b|n|dir|l];
      try (apply Hstop; [done|done|done|by right]).
    destruct (first_existing H dir) as [script|] eqn:Hf.
    2: { apply Hstop; [done|done|done|by right]. }
    unfold configure_detail. rewrite Hf.
    apply runWithinEnvironment_detail.
  - apply Hstop; try done.
    destruct cwd as [| |b|n|dir|l]; try by left.
    destruct (first_existing H dir); [done|by left].
Qed.

(** ** [make] in detail *)

Lemma make_resolved_detail H n cwd args options s0 s :
  heap s0 `prefix_of` heap s -> memo s = memo s0 -> trace s = trace s0 ->
  wp (make_resolved H n cwd args options)
     (make_detail H cwd (settings (heap s) options) s0) s.
Proof.
  intros Hh Hm Ht. unfold make_resolved. apply wp_bind.
  destruct (usable (heap s) options) eqn:Hu.
  2: { eapply wp_run; [by apply opts_beyond|]. split; [done|]. left. done. }
  eapply wp_run; [by apply opts_run|]. fold make_defaults.
  set (m := defaults (settings (heap s) options) make_defaults).
  set (L := length (heap s)).
  apply wp_bind. unfold new_array. eapply wp_run; [reflexivity|].
  simpl. rewrite length_app. simpl. rewrite Nat.add_1_r. fold L.
  set (s3 := set_heap ((heap s ++ [CObj m]) ++ [CArr []])
               (set_heap (heap s ++ [CObj m]) s)).
  assert (HL3 : heap s3 !! L = Some (CObj m)).
  { simpl. apply lookup_kept, lookup_fresh. }
  assert (HA3 : heap s3 !! S L = Some (CArr [])).
  { simpl. rewrite <- app_assoc. apply lookup_second. }
  assert (Hp3 : heap s `prefix_of` heap s3).
  { simpl. rewrite <- app_assoc. by apply prefix_app_r. }
  assert (HL0 : (length (heap s0) <= L)%nat) by (by apply prefix_length).
  apply wp_bind. eapply wp_run; [by apply get_prop_at|].
  unfold make_detail. fold m.
  set (parallel := truthy (default VUndefined (m !! "supportsParallelBuild"))).
  assert (Hfin : forall reads s5 items,
    heap s `prefix_of` heap s5 ->
    trace s5 = trace s0 ++ reads ->
    heap s5 !! L = Some (CObj m) ->
    heap s5 !! S L = Some (CArr items) ->
    (forall s', heap s5 `prefix_of` heap s' -> memo s' = memo s5 ->
       if parallel then
         match memo s0 with
         | Some v => reads = [] ∧ memo s' = Some v
         | None => reads = detection_reads H
                   ∧ ∃ c, core_count H = Some c
                          ∧ cached_cores s' = Some (NInt c)
         end
       else reads = [] ∧ memo s' = memo s0) ->
    wp ((if bool_decide (0 < n)%nat then
           a ← toArray args; concat (VRef (S L)) a
         else mret (VRef (S L)))
        ≫= fun makeArgs =>
             runWithinEnvironment H cwd (VStr "make") makeArgs (VRef L))
       (fun o s' =>
          heap s0 `prefix_of` heap s'
          ∧ ((o = Beyond
              ∧ (parallel = false -> memo s' = memo s0 ∧ trace s' = trace s0))
             ∨ (o = Throw (IoError "/proc/cpuinfo")
                ∧ parallel = true ∧ memo s0 = None ∧ core_count H = None
                ∧ memo s' = None ∧ trace s' = trace s0 ++ detection_reads H)
             ∨ ∃ la le lo reads,
                 trace s' = trace s0 ++ reads
                            ++ [EvSpawn (VStr "make") (VRef la) (VRef lo)]
                 ∧ o = exit_outcome (VStr "make")
                         (child H (heap s') (VStr "make") (VRef la) (VRef lo))
                 ∧ (length (heap s0) <= la)%nat
                 ∧ (length (heap s0) <= le)%nat
                 ∧ (length (heap s0) <= lo)%nat
                 ∧ heap s' !! le = Some (CObj ∅)
                 ∧ heap s' !! lo
                   = Some (CObj (defaults m
                                   {[ "cwd" := cwd; "env" := VRef le;
                                      "logger" := VNull ]}))
                 ∧ if parallel then
                     match memo s0 with
                     | Some v => reads = [] ∧ memo s' = Some v
                     | None => reads = detection_reads H
                               ∧ ∃ c, core_count H = Some c
                                      ∧ cached_cores s' = Some (NInt c)
                     end
                   else reads = [] ∧ memo s' = memo s0)) s5).
  { intros reads s5 items Hp5 Ht5 HL5 HA5 Hcache.
    assert (Hl5 : (S L < length (heap s5))%nat) by (by eapply lookup_lt_Some).
    assert (Hrun : forall la s6,
      heap s5 `prefix_of` heap s6 -> memo s6 = memo s5 ->
      trace s6 = trace s5 -> (S L <= la)%nat ->
      wp (runWithinEnvironment H cwd (VStr "make") (VRef la) (VRef L))
         (fun o s' =>
            heap s0 `prefix_of` heap s'
            ∧ ((o = Beyond
                ∧ (parallel = false ->
                   memo s' = memo s0 ∧ trace s' = trace s0))
               ∨ (o = Throw (IoError "/proc/cpuinfo")
                  ∧ parallel = true ∧ memo s0 = None ∧ core_count H = None
                  ∧ memo s' = None
                  ∧ trace s' = trace s0 ++ detection_reads H)
               ∨ ∃ la le lo reads,
                   trace s' = trace s0 ++ reads
                              ++ [EvSpawn (VStr "make") (VRef la) (VRef lo)]
                   ∧ o = exit_outcome (VStr "make")
                           (child H (heap s') (VStr "make") (VRef la)
                              (VRef lo))
                   ∧ (length (heap s0) <= la)%nat
                   ∧ (length (heap s0) <= le)%nat
                   ∧ (length (heap s0) <= lo)%nat
                   ∧ heap s' !! le = Some (CObj ∅)
                   ∧ heap s' !! lo
                     = Some (CObj (defaults m
                                     {[ "cwd" := cwd; "env" := VRef le;
                                        "logger" := VNull ]}))
                   ∧ if parallel then
                       match memo s0 with
                       | Some v => reads = [] ∧ memo s' = Some v
                       | None => reads = detection_reads H
                                 ∧ ∃ c, core_count H = Some c
                                        ∧ cached_cores s' = Some (NInt c)
                       end
                     else reads = [] ∧ memo s' = memo s0)) s6).
    { intros la s6 Hp6 Hm6 Ht6 Hla.
      eapply wp_mono; [apply runWithinEnvironment_detail|].
      intros o s' (Hp' & Hm' & Hd).
      assert (Hl6 : (length (heap s5) <= length (heap s6))%nat)
        by (by apply prefix_length).
      assert (Hl5' : (L <= length (heap s5))%nat)
        by (apply prefix_length in Hp5; by unfold L).
      split; [etrans; [exact Hh|]; etrans; [exact Hp5|]; by etrans|].
      assert (Hquiet : parallel = false ->
                       reads = [] ∧ memo s5 = memo s0).
      { intros Hpar. specialize (Hcache s5). rewrite Hpar in Hcache.
        by apply Hcache. }
      destruct Hd as [[-> Htr]|(a & le & lo & Htr & Ho & Hle & Hlo & He & Hop & Ha)].
      { left. split; [done|]. intros Hpar.
        destruct (Hquiet Hpar) as [-> Hq]. rewrite app_nil_r in Ht5.
        split; congruence. }
      right. right.
      unfold options_of, kept_args, reinterprets in Hop, Ha. simpl in Hop, Ha.
      rewrite (prefix_kept _ _ _ _ Hp6 HL5) in Hop. subst a.
      exists la, le, lo, reads.
      split; [rewrite Htr, Ht6, Ht5; by rewrite <- app_assoc|].
      split; [done|]. split; [lia|]. split; [lia|]. split; [lia|].
      split; [done|]. split; [done|].
      apply Hcache; [by etrans|congruence]. }
    apply wp_bind. case_bool_decide.
    - apply wp_bind.
      destruct (toArray_cases args s5) as [E|E];
        (eapply wp_run; [exact E|]).
      2: { split; [by etrans|]. left. split; [done|]. intros Hpar.
           specialize (Hcache s5). rewrite Hpar in Hcache.
           destruct Hcache as [-> Hq]; [done|done|].
           rewrite app_nil_r in Ht5. done. }
      eapply wp_run.
      { eapply concat_run; simpl.
        - by apply lookup_kept.
        - apply lookup_fresh. }
      apply Hrun; simpl; try done.
      + rewrite <- app_assoc. by apply prefix_app_r.
      + rewrite length_app. simpl. lia.
    - apply wp_ret. by apply Hrun. }
  apply wp_bind. destruct parallel eqn:Hpar.
  2: { apply wp_ret. apply (Hfin [] s3 []); try done.
       - simpl. by rewrite app_nil_r.
       - intros s' _ Hm'. split; [done|]. simpl in Hm'. congruence. }
  assert (Hupd : forall (h : list cell) x,
            heap s `prefix_of` h -> heap s `prefix_of` <[S L := x]> h).
  { intros h x Hp. apply prefix_update; [done|]. unfold L. lia. }
  apply wp_bind.
  destruct (memo s0) as [v|] eqn:Hm0.
  - eapply wp_run.
    { apply machineInformation_cached. simpl. by rewrite Hm. }
    apply (jobs_rest _ L m); try done.
    + split; [by etrans|]. left. done.
    + intros li kvs cores N -> Hli Hk Hj.
      assert (Hne : li <> S L) by congruence.
      apply (Hfin [] _ [VStr ("--jobs=" +:+ N)]); simpl.
      * by apply Hupd.
      * by rewrite app_nil_r.
      * rewrite list_lookup_insert_ne by lia. done.
      * apply list_lookup_insert_eq. by eapply lookup_lt_Some.
      * intros s' _ Hm'. split; [done|]. congruence.
  - assert (Hm3 : memo s3 = None) by (simpl; done).
    assert (Hl3 : length (heap s3) = S (S L)).
    { simpl. rewrite !length_app. simpl. lia. }
    destruct (core_count H) as [c|] eqn:Hcc.
    2: { eapply wp_run; [by apply machineInformation_fails|].
         split.
         { simpl. etrans; [exact Hh|]. etrans; [exact Hp3|].
           by apply prefix_app_r. }
         right. left. simpl. rewrite Ht. done. }
    eapply wp_run; [by apply machineInformation_first|].
    apply (jobs_rest _ L m); try done.
    + simpl. by apply lookup_kept.
    + simpl. by apply lookup_kept.
    + split; [|left; done]. simpl. etrans; [exact Hh|].
      etrans; [exact Hp3|]. by apply prefix_app_r.
    + intros li kvs cores N [= <-] Hli Hk Hj.
      simpl in Hli. rewrite lookup_fresh in Hli. injection Hli as <-.
      rewrite lookup_singleton_eq in Hk. injection Hk as <-.
      assert (Hcell : <[S L := CArr [VStr ("--jobs=" +:+ N)]]>
                        (heap s3 ++ [CObj {[ "cores" := VNum (NInt c) ]}])
                      !! length (heap s3)
                      = Some (CObj {[ "cores" := VNum (NInt c) ]})).
      { rewrite list_lookup_insert_ne by lia. apply lookup_fresh. }
      apply (Hfin (detection_reads H) _ [VStr ("--jobs=" +:+ N)]); simpl.
      * apply Hupd. etrans; [exact Hp3|]. by apply prefix_app_r.
      * by rewrite Ht.
      * rewrite list_lookup_insert_ne by lia. by apply lookup_kept.
      * apply list_lookup_insert_eq. rewrite !length_app. simpl. lia.
      * intros s' Hp' Hm'. split; [done|]. exists c. split; [done|].
        unfold cached_cores. rewrite Hm'. simpl in Hp', Hcell.
        rewrite (prefix_kept _ _ _ _ Hp' Hcell).
        by rewrite lookup_singleton_eq.
Qed.

Lemma make_detail_holds H arguments s :
  wp (make H arguments)
     (make_detail H (param 0 arguments)
        (settings (heap s)
           (options_of (heap s) (param 1 arguments) (param 2 arguments))) s)
     s.
Proof.
  unfold make. apply wp_bind. unfold options_of.
  destruct (args_or_options_cases (param 1 arguments) (param 2 arguments) s)
    as [[Hr E]|[[Hr E]|E]]; (eapply wp_run; [exact E|]); rewrite ?Hr.
  - assert (Ho : is_object (heap s) (param 1 arguments) = true).
    { unfold reinterprets in Hr. by apply andb_true_iff in Hr as [_ ?]. }
    eapply wp_mono.
    { apply (make_resolved_detail H (length arguments) (param 0 arguments)
               (VRef (length (heap s))) (param 1 arguments) s); simpl;
        try done.
      by apply prefix_app_r. }
    intros o s' Hd. simpl in Hd.
    rewrite settings_snoc in Hd; [done|].
    by destruct (param 1 arguments).
  - by apply make_resolved_detail.
  - split; [done|]. left. done.
Qed.

(** ** More on the four functions *)

Lemma spawned_last s s' cmd a op cmd' a' op' :
  spawned s s' cmd a op ->
  trace s' = trace s ++ [EvSpawn cmd' a' op'] ->
  cmd = cmd' ∧ a = a' ∧ op = op'.
Proof.
  intros (pre & Ht & _) Ht'. rewrite Ht' in Ht.
  apply app_inv_head in Ht.
  change ([] ++ [EvSpawn cmd' a' op'] = pre ++ [EvSpawn cmd a op]) in Ht.
  apply app_inj_tail in Ht as [_ [= -> -> ->]]. done.
Qed.

Lemma not_spawned_same s s' cmd a op :
  trace s' = trace s -> ¬ spawned s s' cmd a op.
Proof.
  intros Ht (pre & Ht' & _). rewrite Ht in Ht'.
  rewrite <- (app_nil_r (trace s)) in Ht' at 1.
  apply app_inv_head in Ht'. by destruct pre.
Qed.

Lemma defaults_setting h options k d (D : gmap string value) :
  D !! k = Some d ->
  defaults (settings h options) D !! k = Some (setting h options k d).
Proof.
  intros HD. rewrite defaults_lookup, HD. unfold setting.
  by destruct (settings h options !! k) as [[]|].
Qed.

Lemma defaults_other kvs k (D : gmap string value) :
  D !! k = None -> defaults kvs D !! k = kvs !! k.
Proof.
  intros HD. rewrite defaults_lookup, HD. by destruct (kvs !! k) as [[]|].
Qed.

(** X1: the options [runWithinEnvironment] hands to the runner are a new
    object, never the caller's.  It holds every key of the caller's options;
    [cwd] is the caller's [options.cwd] when given and the [cwd] argument
    otherwise, [env] is the caller's [options.env] when given and a new empty
    object otherwise, [logger] is the caller's when given and [null]
    otherwise. *)
Theorem runner_options_completed (H : host) (cwd cmd args options : value)
    (s : state) (c a op : value) :
  let s' := (runWithinEnvironment H cwd cmd args options s).2 in
  let given := options_of (heap s) args options in
  spawned s s' c a op ->
  ∃ lo le m,
    op = VRef lo ∧ (length (heap s) <= lo)%nat
    ∧ heap s' !! lo = Some (CObj m)
    ∧ m !! "cwd" = Some (setting (heap s) given "cwd" cwd)
    ∧ m !! "env" = Some (setting (heap s) given "env" (VRef le))
    ∧ (length (heap s) <= le)%nat ∧ heap s' !! le = Some (CObj ∅)
    ∧ m !! "logger" = Some (setting (heap s) given "logger" VNull)
    ∧ forall k, k <> "cwd" -> k <> "env" -> k <> "logger" ->
                m !! k = settings (heap s) given !! k.
Proof.
  intros s' given Hsp.
  destruct (runWithinEnvironment_detail H cwd cmd args options s)
    as (_ & _ & [[_ Ht]|(a' & le & lo & Ht & _ & Hle & Hlo & He & Hop & _)]).
  { by destruct (not_spawned_same _ _ _ _ _ Ht Hsp). }
  destruct (spawned_last _ _ _ _ _ _ _ _ Hsp Ht) as (_ & _ & ->).
  exists lo, le. eexists. split; [done|]. split; [done|].
  split; [exact Hop|].
  split; [by apply defaults_setting|].
  split; [by apply defaults_setting|].
  split; [done|]. split; [done|].
  split; [by apply defaults_setting|].
  intros k H1 H2 H3. apply defaults_other.
  by rewrite !lookup_insert_ne, lookup_singleton_ne.
Qed.

Lemma runner_options_completed_witness :
  let s' := (runWithinEnvironment sample_host (VStr "/src") (VStr "make")
               (VRef 0) (VRef 2) sample_state).2 in
  ∃ lo le m,
    VRef 4 = VRef lo ∧ (3 <= lo)%nat
    ∧ heap s' !! lo = Some (CObj m)
    ∧ m !! "cwd" = Some (VStr "/src")
    ∧ m !! "env" = Some (VRef 1)
    ∧ (3 <= le)%nat ∧ heap s' !! le = Some (CObj ∅)
    ∧ m !! "logger" = Some VNull
    ∧ forall k, k <> "cwd" -> k <> "env" -> k <> "logger" ->
                m !! k = settings (heap sample_state) (VRef 2) !! k.
Proof.
  apply (runner_options_completed sample_host (VStr "/src") (VStr "make")
           (VRef 0) (VRef 2) sample_state (VStr "make") (VRef 0) (VRef 4)).
  exists []. split; reflexivity.
Defined.

(** X2: an [args] value that is neither [null] nor [undefined], and that
    is not taken for the options, reaches the runner as it is: an array is
    passed by reference, not copied, and a plain object given together with
    [options], be it [null], stays the arguments. *)
Theorem runner_gets_args_itself (H : host) (cwd cmd args options : value)
    (s : state) (c a op : value) :
  let s' := (runWithinEnvironment H cwd cmd args options s).2 in
  nullish args = false ->
  reinterprets (heap s) args options = false ->
  spawned s s' c a op ->
  c = cmd ∧ a = args.
Proof.
  intros s' Hn Hr Hsp.
  destruct (runWithinEnvironment_detail H cwd cmd args options s)
    as (_ & _ & [[_ Ht]|(a' & le & lo & Ht & _ & _ & _ & _ & _ & Ha)]).
  { by destruct (not_spawned_same _ _ _ _ _ Ht Hsp). }
  destruct (spawned_last _ _ _ _ _ _ _ _ Hsp Ht) as (-> & -> & _).
  unfold kept_args in Ha. by rewrite Hr, Hn in Ha.
Qed.

Lemma runner_gets_args_itself_witness :
  let s' := (runWithinEnvironment sample_host (VStr "/src") (VStr "make")
               (VRef 2) VNull sample_state).2 in
  spawned sample_state s' (VStr "make") (VRef 2) (VRef 4)
  ∧ VStr "make" = VStr "make" ∧ VRef 2 = VRef 2.
Proof.
  assert (Hsp : spawned sample_state
                  (runWithinEnvironment sample_host (VStr "/src")
                     (VStr "make") (VRef 2) VNull sample_state).2
                  (VStr "make") (VRef 2) (VRef 4)).
  { exists []. split; reflexivity. }
  split; [exact Hsp|].
  exact (runner_gets_args_itself sample_host (VStr "/src") (VStr "make")
           (VRef 2) VNull sample_state (VStr "make") (VRef 2) (VRef 4)
           eq_refl eq_refl Hsp).
Defined.

Lemma spawns_app tr tr' : spawns (tr ++ tr') = (spawns tr + spawns tr')%nat.
Proof. unfold spawns. by rewrite filter_app, length_app. Qed.

Lemma spawns_none pre :
  forallb (fun e => negb (is_spawn e)) pre = true -> spawns pre = 0%nat.
Proof.
  unfold spawns. induction pre as [|e pre IH]; simpl; [done|].
  intros [He Hp]%andb_true_iff. rewrite filter_cons.
  destruct (is_spawn e); [done|]. rewrite decide_False by done. auto.
Qed.

Lemma spawned_spawns s s' cmd a op :
  spawned s s' cmd a op -> spawns (trace s') = S (spawns (trace s)).
Proof.
  intros (pre & -> & Hp). rewrite !spawns_app, (spawns_none _ Hp).
  unfold spawns. simpl. lia.
Qed.

(** X3: a call of any of the four functions starts at most one child
    process, and the spawn is the last thing it does: the trace only grows,
    and when it holds one more spawn that spawn is its last event. *)
Theorem at_most_one_spawn (H : host) (c : call) (s : state) :
  let s' := (exec H c s).2 in
  trace s `prefix_of` trace s'
  ∧ (spawns (trace s') = spawns (trace s)
     ∨ (spawns (trace s') = S (spawns (trace s))
        ∧ ∃ cmd a op, last (trace s') = Some (EvSpawn cmd a op))).
Proof.
  intros s'.
  destruct (call_post_runner _ _ _ _ _ (exec_post H c s))
    as [[(pre & Ht & Hp) _]|(cmd & a & op & Hsp & _)].
  - fold s' in Ht. split; [by exists pre|]. left.
    rewrite Ht, spawns_app, (spawns_none _ Hp). lia.
  - fold s' in Hsp. split.
    { destruct Hsp as (pre & -> & _). by eexists. }
    right. split; [by eapply spawned_spawns|].
    destruct Hsp as (pre & -> & _). exists cmd, a, op.
    by rewrite !app_assoc, last_snoc.
Qed.

Lemma spawn_detail_quiet H cwd cmd kvs kept s o s' :
  spawn_detail H cwd cmd kvs kept s o s' -> quiet s s'.
Proof.
  intros (_ & Hm & [[_ Ht]|(a & le & lo & Ht & _)]).
  - split; [done|by left].
  - split; [done|]. right. eauto.
Qed.

(** X4: only [make] looks at the machine.  [runWithinEnvironment],
    [configure] and [patch] leave the cache of the core count as it is and
    read no file: their trace is as it was, or longer by one spawn. *)
Theorem only_make_detects (H : host) (cwd cmd args options patchFile : value)
    (s : state) :
  quiet s (runWithinEnvironment H cwd cmd args options s).2
  ∧ quiet s (configure H cwd args options s).2
  ∧ quiet s (patch H cwd patchFile options s).2.
Proof.
  split; [|split].
  - eapply spawn_detail_quiet. apply runWithinEnvironment_detail.
  - assert (Hd := configure_detail_holds H cwd args options s).
    unfold wp, configure_detail in Hd.
    destruct cwd as [| |b|n|dir|l];
      try (destruct Hd as (_ & Hm & Ht & _); split; [done|by left]).
    destruct (first_existing H dir).
    + by eapply spawn_detail_quiet.
    + destruct Hd as (_ & Hm & Ht & _). split; [done|by left].
  - eapply spawn_detail_quiet. apply patch_detail.
Qed.

Lemma spawns_detection H : spawns (detection_reads H) = 0%nat.
Proof. unfold detection_reads. by destruct (isPlatform H "linux"). Qed.

Lemma exit_outcome_runner_error cmd r e :
  exit_outcome cmd r = Throw e -> runner_error e = true.
Proof.
  destruct r as [code out err|]; simpl; [|by intros [= <-]].
  case_bool_decide; [done|by intros [= <-]].
Qed.

Lemma spawn_detail_own H cwd cmd kvs kept s o s' e :
  spawn_detail H cwd cmd kvs kept s o s' ->
  o = Throw e -> runner_error e = false -> False.
Proof.
  intros (_ & _ & [[-> _]|(a & le & lo & _ & Ho & _)]) E He; [done|].
  rewrite E in Ho. symmetry in Ho.
  apply exit_outcome_runner_error in Ho. congruence.
Qed.

(** X5: the errors of the module's own.  A call that throws an error
    other than the two of the runner, [ExecutionError] and [SpawnError], has
    not called the runner, and it is never a call of [runWithinEnvironment]
    or [patch]; for [configure] the error is a [TypeError] when [cwd] is not
    a string and otherwise the error that says no script was found, on a host
    where none exists; for [make] it is the failure to read [/proc/cpuinfo],
    on a Linux host, with an empty cache. *)
Theorem own_errors (H : host) (c : call) (s : state) (e : error) :
  let o := (exec H c s).1 in
  let s' := (exec H c s).2 in
  o = Throw e ->
  runner_error e = false ->
  spawns (trace s') = spawns (trace s)
  ∧ match c with
    | CallRun _ _ _ _ | CallPatch _ _ _ => False
    | CallConfigure cwd _ _ =>
        match cwd with
        | VStr dir =>
            first_existing H dir = None
            ∧ e = JsError ("Cannot find any of configure, config under "
                           +:+ dir)
        | _ => e = JsTypeError
        end
    | CallMake _ =>
        e = IoError "/proc/cpuinfo" ∧ isPlatform H "linux" = true
        ∧ file_lines H "/proc/cpuinfo" = None ∧ memo s = None
    end.
Proof.
  intros o s' Ho He. destruct c as [cwd cmd args options|cwd args options
                                   |cwd patchFile options|arguments].
  - exfalso.
    eapply spawn_detail_own; [apply runWithinEnvironment_detail|exact Ho|done].
  - assert (Hd := configure_detail_holds H cwd args options s).
    unfold wp, configure_detail in Hd. simpl in o, s'. fold o s' in Hd.
    destruct cwd as [| |b|n|dir|l];
      try (destruct Hd as (_ & _ & -> & [Hd|Hd]); split; congruence).
    destruct (first_existing H dir).
    + exfalso. by eapply spawn_detail_own.
    + destruct Hd as (_ & _ & -> & [Hd|Hd]); [congruence|].
      split; [done|]. split; [done|]. congruence.
  - exfalso. eapply spawn_detail_own; [apply patch_detail|exact Ho|done].
  - assert (Hd := make_detail_holds H arguments s).
    unfold wp, make_detail in Hd. simpl in o, s'. fold o s' in Hd.
    destruct Hd as (_ & [[Hd _]|[(Hd & _ & Hm & Hc & _ & Ht)
                       |(la & le & lo & reads & _ & Hd & _)]]).
    + congruence.
    + split.
      { rewrite Ht, spawns_app, spawns_detection. lia. }
      split; [congruence|]. unfold core_count in Hc.
      destruct (isPlatform H "linux"); [|done].
      by destruct (file_lines H "/proc/cpuinfo").
    + exfalso. rewrite Ho in Hd. symmetry in Hd.
      apply exit_outcome_runner_error in Hd. congruence.
Qed.

Lemma own_errors_witness :
  spawns (trace (configure sample_host (VStr "/tmp") (VRef 0) (VRef 2)
                   sample_state).2) = 0%nat
  ∧ first_existing sample_host "/tmp" = None
  ∧ JsError "Cannot find any of configure, config under /tmp"
    = JsError ("Cannot find any of configure, config under " +:+ "/tmp").
Proof.
  apply (own_errors sample_host
           (CallConfigure (VStr "/tmp") (VRef 0) (VRef 2)) sample_state
           (JsError "Cannot find any of configure, config under /tmp"));
    reflexivity.
Defined.

(** X6: [configure] needs its [cwd]: when [cwd] is not a string the call
    throws a [TypeError], from [path.join], and starts no child, whatever the
    arguments and options are. *)
Theorem configure_cwd_not_string (H : host) (cwd args options : value)
    (s : state) :
  is_string cwd = false ->
  valid (heap s) args = true ->
  (configure H cwd args options s).1 = Throw JsTypeError
  ∧ trace (configure H cwd args options s).2 = trace s
  ∧ memo (configure H cwd args options s).2 = memo s.
Proof.
  intros Hc Hv. unfold configure, configure_resolved.
  destruct (reinterprets (heap s) args options) eqn:Hr.
  - unfold_m. rewrite (args_or_options_fires _ _ _ Hr).
    rewrite find_detail. by destruct cwd.
  - unfold_m. rewrite (args_or_options_keeps _ _ _ Hr Hv).
    rewrite find_detail. by destruct cwd.
Qed.

Lemma configure_cwd_not_string_witness :
  (configure sample_host VUndefined (VRef 0) (VRef 2) sample_state).1
  = Throw JsTypeError.
Proof.
  apply (configure_cwd_not_string sample_host VUndefined (VRef 0) (VRef 2)
           sample_state); reflexivity.
Defined.

(** ** More on [make] *)

Lemma spawned_tail s s' cmd a op reads cmd' a' op' :
  spawned s s' cmd a op ->
  trace s' = trace s ++ reads ++ [EvSpawn cmd' a' op'] ->
  cmd = cmd' ∧ a = a' ∧ op = op' ∧ trace s' = trace s ++ reads ++ [EvSpawn cmd a op].
Proof.
  intros (pre & Ht & _) Ht'. rewrite Ht' in Ht.
  apply app_inv_head in Ht.
  apply app_inj_tail in Ht as [_ [= -> -> ->]]. done.
Qed.

Lemma parallel_setting h options :
  default VUndefined
    (defaults (settings h options) make_defaults !! "supportsParallelBuild")
  = setting h options "supportsParallelBuild" (VBool true).
Proof. by rewrite (defaults_setting _ _ _ (VBool true)). Qed.

(** X7: with a [supportsParallelBuild] that is falsy, [false] or [0] or
    the empty string, [make] does not ask for the core count: the
    cache is as it was and no file is read, even when the cache is empty,
    and the arguments of the runner are the caller's elements only. *)
Theorem make_without_parallel (H : host) (arguments : list value)
    (s : state) :
  let args := param 1 arguments in
  let options := options_of (heap s) args (param 2 arguments) in
  let s' := (make H arguments s).2 in
  truthy (setting (heap s) options "supportsParallelBuild" (VBool true))
  = false ->
  valid (heap s) args = true ->
  quiet s s'
  ∧ forall cmd a op, spawned s s' cmd a op ->
      ∃ l, a = VRef l
           ∧ heap s' !! l
             = Some (CArr (given_items (heap s) args (param 2 arguments))).
Proof.
  intros args options s' Hf Hv. split.
  - assert (Hd := make_detail_holds H arguments s).
    unfold wp, make_detail in Hd. fold s' args options in Hd.
    rewrite parallel_setting, Hf in Hd.
    destruct Hd as (_ & [[_ Hq]|[(_ & ? & _)
                       |(la & le & lo & reads & Ht & _ & _ & _ & _ & _ & _
                         & -> & Hm)]]); [|done|].
    + destruct (Hq eq_refl) as [Hm Ht]. split; [done|by left].
    + split; [done|]. right. eauto.
  - intros cmd a op Hsp.
    assert (Hpost := make_post H arguments s). unfold wp in Hpost.
    fold s' in Hpost.
    destruct (spawned_inv _ _ _ _ _ _ _ _ Hpost Hsp) as [_ Hmk].
    destruct (Hmk Hv) as (_ & l & items & -> & Hl & Hitems).
    fold args options in Hitems. rewrite Hf in Hitems. subst items. eauto.
Qed.

Lemma make_without_parallel_witness :
  let s := State [CObj {[ "supportsParallelBuild" := VNum (NInt 0) ]}]
             None [] in
  quiet s (make sample_host [VStr "/src"; VRef 0] s).2.
Proof.
  intros s.
  destruct (make_without_parallel sample_host [VStr "/src"; VRef 0] s)
    as [Hq _]; [reflexivity|reflexivity|exact Hq].
Defined.

(** X8: the job count has no floor.  With parallel builds on, a
    [maxParallelJobs] that is an integer of at most 3 goes into the flag as
    it is, zero and negative numbers too, since the core count is never
    below 2. *)
Theorem make_cap_below_cores (H : host) (arguments : list value) (s : state)
    (m : Z) (cmd a op : value) :
  let args := param 1 arguments in
  let options := options_of (heap s) args (param 2 arguments) in
  let s' := (make H arguments s).2 in
  memo_ok s ->
  valid (heap s) args = true ->
  truthy (setting (heap s) options "supportsParallelBuild" (VBool true))
  = true ->
  setting (heap s) options "maxParallelJobs" (VNum NInf) = VNum (NInt m) ->
  m <= 3 ->
  spawned s s' cmd a op ->
  ∃ l, a = VRef l
       ∧ heap s' !! l
         = Some (CArr (VStr ("--jobs=" +:+ pretty m)
                       :: given_items (heap s) args (param 2 arguments))).
Proof.
  intros args options s' Hok Hv Hsp Hmx Hm Hspawn.
  assert (Hpost := make_post H arguments s). unfold wp in Hpost.
  fold s' in Hpost.
  assert (Hok' : memo_ok s') by (by eapply memo_ok_kept).
  destruct (spawned_inv _ _ _ _ _ _ _ _ Hpost Hspawn) as [_ Hmk].
  destruct (Hmk Hv) as (_ & l & items & -> & Hl & Hitems).
  fold args options in Hitems. rewrite Hsp, Hmx in Hitems.
  destruct Hitems as (cores & N & Hc & Hj & ->).
  destruct Hok' as [Hn|(c & Hc' & Hle)].
  { unfold cached_cores in Hc. by rewrite Hn in Hc. }
  rewrite Hc in Hc'. injection Hc' as ->.
  unfold job_count in Hj. simpl in Hj.
  rewrite Z.min_r in Hj by lia.
  destruct (bool_decide (Z.abs m <= 2 ^ 53)); [|done].
  injection Hj as <-. eauto.
Qed.

Lemma make_cap_below_cores_witness :
  heap (make sample_host [VStr "/src"; VRef 0] capped_state).2 !! 6%nat
  = Some (CArr [VStr "--jobs=0"]).
Proof.
  destruct (make_cap_below_cores sample_host [VStr "/src"; VRef 0]
              capped_state 0 (VStr "make") (VRef 6%nat) (VRef 8%nat))
    as (l & E & Hl);
    [by left|reflexivity|reflexivity|reflexivity|lia
    |exists [EvRead "/proc/cpuinfo"]; split; reflexivity|].
  injection E as <-. exact Hl.
Defined.

(** X9: the first [make] of a process, on a host whose core count [c] can
    be detected and with [maxParallelJobs] left at its default: the detection
    runs once, before the spawn, the cache then holds [c], and the flag is
    [--jobs=c+1]. *)
Theorem first_make_default (H : host) (arguments : list value) (s : state)
    (c : Z) (cmd a op : value) :
  let args := param 1 arguments in
  let options := options_of (heap s) args (param 2 arguments) in
  let s' := (make H arguments s).2 in
  memo s = None ->
  core_count H = Some c ->
  valid (heap s) args = true ->
  truthy (setting (heap s) options "supportsParallelBuild" (VBool true))
  = true ->
  setting (heap s) options "maxParallelJobs" (VNum NInf) = VNum NInf ->
  spawned s s' cmd a op ->
  trace s' = trace s ++ detection_reads H ++ [EvSpawn cmd a op]
  ∧ cached_cores s' = Some (NInt c)
  ∧ ∃ l, a = VRef l
         ∧ heap s' !! l
           = Some (CArr (VStr ("--jobs=" +:+ pretty (c + 1))
                         :: given_items (heap s) args (param 2 arguments))).
Proof.
  intros args options s' Hm Hc Hv Hsp Hmx Hspawn.
  assert (Hpost := make_post H arguments s). unfold wp in Hpost.
  fold s' in Hpost.
  destruct (spawned_inv _ _ _ _ _ _ _ _ Hpost Hspawn) as [Ho Hmk].
  assert (Hne := exit_outcome_not_early cmd (child H (heap s') cmd a op)).
  rewrite <- Ho in Hne.
  assert (Hd := make_detail_holds H arguments s).
  unfold wp, make_detail in Hd. fold s' args options in Hd.
  rewrite parallel_setting, Hsp, Hm in Hd.
  destruct Hd as (_ & [[Hb _]|[(Hb & _)
                     |(la & le & lo & reads & Ht & _ & _ & _ & _ & _ & _
                       & -> & c' & Hc' & Hcc)]]).
  { rewrite Hb in Hne. by destruct Hne. }
  { rewrite Hb in Hne. by destruct Hne. }
  rewrite Hc in Hc'. injection Hc' as <-.
  destruct (spawned_tail _ _ _ _ _ _ _ _ _ Hspawn Ht) as (-> & -> & -> & _).
  split; [done|]. split; [done|].
  destruct (Hmk Hv) as (_ & l & items & E & Hl & Hitems).
  fold args options in Hitems. rewrite Hsp, Hmx in Hitems.
  destruct Hitems as (cores & N & Hc1 & Hj & ->).
  rewrite Hcc in Hc1. injection Hc1 as <-.
  unfold job_count in Hj. simpl in Hj.
  destruct (bool_decide (Z.abs (c + 1) <= 2 ^ 53)); [|done].
  injection Hj as <-. eauto.
Qed.

Lemma first_make_default_witness :
  let s := State [CArr [VStr "all"]] None [] in
  let s' := (make sample_host [VStr "/src"; VRef 0] s).2 in
  trace s' = [EvRead "/proc/cpuinfo";
              EvSpawn (VStr "make") (VRef 5%nat) (VRef 7%nat)]
  ∧ heap s' !! 5%nat = Some (CArr [VStr "--jobs=4"; VStr "all"]).
Proof.
  intros s s'.
  destruct (first_make_default sample_host [VStr "/src"; VRef 0] s 3
              (VStr "make") (VRef 5%nat) (VRef 7%nat))
    as (Ht & _ & l & E & Hl);
    [reflexivity|reflexivity|reflexivity|reflexivity|reflexivity
    |exists [EvRead "/proc/cpuinfo"]; split; reflexivity|].
  injection E as <-. split; [exact Ht|exact Hl].
Defined.

(** X10: [make] takes a string given as [args] apart: the runner gets the
    characters of the string, one argument each, after the jobs flag when
    there is one.  [runWithinEnvironment] hands the same string on as it
    is. *)
Theorem make_splits_text (H : host) (cwd options : value) (t : string)
    (s : state) (cmd a op : value) :
  let s' := (make H [cwd; VStr t; options] s).2 in
  spawned s s' cmd a op ->
  ∃ l items,
    a = VRef l ∧ heap s' !! l = Some (CArr items)
    ∧ (items = chars t ∨ ∃ flag, items = VStr flag :: chars t).
Proof.
  intros s' Hspawn.
  assert (Hpost := make_post H [cwd; VStr t; options] s).
  unfold wp in Hpost. fold s' in Hpost.
  destruct (spawned_inv _ _ _ _ _ _ _ _ Hpost Hspawn) as [_ Hmk].
  destruct (Hmk eq_refl) as (_ & l & items & -> & Hl & Hitems).
  exists l, items. split; [done|]. split; [done|].
  change (given_items (heap s) (param 1 [cwd; VStr t; options])
            (param 2 [cwd; VStr t; options])) with
    (given_items (heap s) (VStr t) options) in Hitems.
  assert (E : given_items (heap s) (VStr t) options = chars t).
  { unfold given_items, reinterprets. simpl. by rewrite andb_false_r. }
  rewrite E in Hitems.
  destruct (truthy _); [|by left].
  destruct Hitems as (cores & N & _ & _ & ->). right. eauto.
Qed.

Lemma make_splits_text_witness :
  let s' := (make sample_host [VStr "/src"; VStr "all"; VRef 2]
               sample_state).2 in
  ∃ l items,
    VRef 7%nat = VRef l ∧ heap s' !! l = Some (CArr items)
    ∧ (items = chars "all" ∨ ∃ flag, items = VStr flag :: chars "all").
Proof.
  apply (make_splits_text sample_host (VStr "/src") (VRef 2) "all"
           sample_state (VStr "make") (VRef 7%nat) (VRef 9%nat)).
  exists [EvRead "/proc/cpuinfo"]. split; reflexivity.
Defined.

Lemma make_resolved_fails H n cwd args options s :
  usable (heap s) options = true ->
  memo s = None -> core_count H = None ->
  truthy (setting (heap s) options "supportsParallelBuild" (VBool true))
  = true ->
  wp (make_resolved H n cwd args options)
     (fun o s' => o = Throw (IoError "/proc/cpuinfo") ∧ memo s' = None
                  ∧ trace s' = trace s ++ detection_reads H) s.
Proof.
  intros Hu Hm Hc Hsp. unfold make_resolved. apply wp_bind.
  eapply wp_run; [by apply opts_run|].
  apply wp_bind. unfold new_array. eapply wp_run; [reflexivity|].
  apply wp_bind. eapply wp_run.
  { apply get_prop_at. simpl. apply lookup_kept, lookup_fresh. }
  fold make_defaults. rewrite parallel_setting, Hsp.
  apply wp_bind, wp_bind.
  eapply wp_run; [by apply machineInformation_fails|]. done.
Qed.

(** X11: a detection that fails is not cached.  When the cache is empty,
    parallel builds are on and [/proc/cpuinfo] cannot be read on a Linux
    host, [make] throws the read error after the one read, starts no child,
    and leaves the cache empty, so that the next call reads again. *)
Theorem make_detection_fails (H : host) (arguments : list value)
    (s : state) :
  let args := param 1 arguments in
  let options := options_of (heap s) args (param 2 arguments) in
  let s' := (make H arguments s).2 in
  memo s = None ->
  core_count H = None ->
  valid (heap s) args = true ->
  usable (heap s) options = true ->
  truthy (setting (heap s) options "supportsParallelBuild" (VBool true))
  = true ->
  (make H arguments s).1 = Throw (IoError "/proc/cpuinfo")
  ∧ memo s' = None
  ∧ trace s' = trace s ++ [EvRead "/proc/cpuinfo"].
Proof.
  intros args options s' Hm Hc Hv Hu Hsp.
  assert (Hr : detection_reads H = [EvRead "/proc/cpuinfo"]).
  { unfold core_count, detection_reads in *.
    by destruct (isPlatform H "linux"). }
  rewrite <- Hr.
  change (wp (make H arguments)
            (fun o s' => o = Throw (IoError "/proc/cpuinfo") ∧ memo s' = None
                         ∧ trace s' = trace s ++ detection_reads H) s).
  unfold make. fold args. apply wp_bind.
  unfold options, options_of in Hu, Hsp.
  destruct (reinterprets (heap s) args (param 2 arguments)) eqn:Hre.
  - eapply wp_run; [by apply args_or_options_fires|].
    assert (Ho : is_object (heap s) args = true).
    { unfold reinterprets in Hre. by apply andb_true_iff in Hre as [_ ?]. }
    eapply wp_mono.
    { apply make_resolved_fails; simpl; [by apply usable_snoc|done|done|].
      unfold setting. by rewrite settings_snoc. }
    done.
  - eapply wp_run; [by apply args_or_options_keeps|].
    by apply make_resolved_fails.
Qed.

Lemma make_detection_fails_witness :
  (make unreadable_host [VStr "/src"; VRef 0; VRef 2] sample_state).1
  = Throw (IoError "/proc/cpuinfo").
Proof.
  apply (make_detection_fails unreadable_host [VStr "/src"; VRef 0; VRef 2]
           sample_state); reflexivity.
Defined.

(** ** What the runner is handed *)

Lemma spawn_detail_new H cwd cmd kvs kept s o s' c a op :
  spawn_detail H cwd cmd kvs kept s o s' -> spawned s s' c a op ->
  c = cmd
  ∧ (∃ lo le,
       op = VRef lo ∧ (length (heap s) <= lo)%nat
       ∧ (length (heap s) <= le)%nat ∧ heap s' !! le = Some (CObj ∅)
       ∧ heap s' !! lo
         = Some (CObj (defaults kvs {[ "cwd" := cwd; "env" := VRef le;
                                       "logger" := VNull ]})))
  ∧ match kept with
    | Some v => a = v
    | None => ∃ l, a = VRef l ∧ heap s' !! l = Some (CArr [])
                   ∧ (length (heap s) <= l)%nat
    end.
Proof.
  intros (_ & _ & [[_ Ht]|(a' & le & lo & Ht & _ & Hle & Hlo & He & Hop & Ha)])
    Hsp.
  { by destruct (not_spawned_same _ _ _ _ _ Ht Hsp). }
  destruct (spawned_last _ _ _ _ _ _ _ _ Hsp Ht) as (-> & -> & ->).
  split; [done|]. split; [|done]. exists lo, le. done.
Qed.

Lemma completed_lookup (kvs kvs' : gmap string value) k d
    (D : gmap string value) :
  kvs' !! k = kvs !! k -> D !! k = Some d ->
  defaults kvs' D !! k
  = Some (match kvs !! k with Some VUndefined | None => d | Some v => v end).
Proof.
  intros E HD. rewrite defaults_lookup, HD, E.
  by destruct (kvs !! k) as [[]|].
Qed.

(** X12: the runner never gets the caller's options object, and from
    [patch] and [make] it never gets an array of the caller's either: the
    options are a new object in every call that spawns, and the arguments of
    [patch] and [make] are a new array. *)
Theorem runner_values_new (H : host) (c : call) (s : state)
    (cmd a op : value) :
  let s' := (exec H c s).2 in
  spawned s s' cmd a op ->
  (∃ lo, op = VRef lo ∧ (length (heap s) <= lo)%nat
         ∧ is_object (heap s') op = true)
  ∧ match c with
    | CallPatch _ _ _ | CallMake _ =>
        ∃ la, a = VRef la ∧ (length (heap s) <= la)%nat
    | _ => True
    end.
Proof.
  intros s' Hsp.
  assert (Hnew : forall cwd c' kvs kept,
    spawn_detail H cwd c' kvs kept s (exec H c s).1 s' ->
    ∃ lo, op = VRef lo ∧ (length (heap s) <= lo)%nat
          ∧ is_object (heap s') op = true).
  { intros cwd c' kvs kept Hd.
    destruct (spawn_detail_new _ _ _ _ _ _ _ _ _ _ _ Hd Hsp)
      as (_ & (lo & le & -> & Hlo & _ & _ & Hop) & _).
    exists lo. simpl. by rewrite Hop. }
  destruct c as [cwd c' args options|cwd args options
                |cwd patchFile options|arguments]; simpl in s'.
  - split; [|done]. eapply Hnew. apply runWithinEnvironment_detail.
  - split; [|done].
    assert (Hd := configure_detail_holds H cwd args options s).
    unfold wp, configure_detail in Hd. fold s' in Hd.
    destruct cwd as [| |b|n|dir|l];
      try (destruct Hd as (_ & _ & Ht & _);
           by destruct (not_spawned_same _ _ _ _ _ Ht Hsp)).
    destruct (first_existing H dir).
    + by eapply Hnew.
    + destruct Hd as (_ & _ & Ht & _).
      by destruct (not_spawned_same _ _ _ _ _ Ht Hsp).
  - assert (Hd := patch_detail H cwd patchFile options s).
    unfold wp in Hd. fold s' in Hd.
    split; [by eapply Hnew|].
    destruct (spawn_detail_new _ _ _ _ _ _ _ _ _ _ _ Hd Hsp)
      as (_ & _ & ->).
    eexists. split; [done|]. lia.
  - assert (Hd := make_detail_holds H arguments s).
    unfold wp, make_detail in Hd. fold s' in Hd.
    assert (Hpost := make_post H arguments s). unfold wp in Hpost.
    fold s' in Hpost.
    destruct (spawned_inv _ _ _ _ _ _ _ _ Hpost Hsp) as [Ho _].
    assert (Hne := exit_outcome_not_early cmd (child H (heap s') cmd a op)).
    rewrite <- Ho in Hne.
    destruct Hd as (_ & [[Hb _]|[(Hb & _)
                       |(la & le & lo & reads & Ht & _ & Hla & _ & Hlo & _
                         & Hop & _)]]).
    { rewrite Hb in Hne. by destruct Hne. }
    { rewrite Hb in Hne. by destruct Hne. }
    destruct (spawned_tail _ _ _ _ _ _ _ _ _ Hsp Ht) as (-> & -> & -> & _).
    split.
    + exists lo. simpl. by rewrite Hop.
    + by exists la.
Qed.

Lemma runner_values_new_witness :
  let s' := (patch sample_host (VStr "/src") (VStr "fix.diff") (VRef 2)
               sample_state).2 in
  is_object (heap s') (VRef 6%nat) = true.
Proof.
  intros s'.
  destruct (runner_values_new sample_host
              (CallPatch (VStr "/src") (VStr "fix.diff") (VRef 2))
              sample_state (VStr "patch") (VRef 4%nat) (VRef 6%nat))
    as [(lo & E & _ & Ho) _]; [exists []; split; reflexivity|].
  exact Ho.
Defined.

(** X13: the options [make] hands to the runner hold [make]'s own two keys
    next to the runner's: [supportsParallelBuild] and [maxParallelJobs] with
    the caller's values or their defaults, [true] and [Infinity], the [cwd]
    of the caller's options or else the [cwd] argument, and every other key
    of the caller's options. *)
Theorem make_options_completed (H : host) (arguments : list value)
    (s : state) (cmd a op : value) :
  let given :=
    options_of (heap s) (param 1 arguments) (param 2 arguments) in
  let s' := (make H arguments s).2 in
  spawned s s' cmd a op ->
  ∃ lo m,
    op = VRef lo ∧ heap s' !! lo = Some (CObj m)
    ∧ m !! "supportsParallelBuild"
      = Some (setting (heap s) given "supportsParallelBuild" (VBool true))
    ∧ m !! "maxParallelJobs"
      = Some (setting (heap s) given "maxParallelJobs" (VNum NInf))
    ∧ m !! "cwd" = Some (setting (heap s) given "cwd" (param 0 arguments))
    ∧ m !! "logger" = Some (setting (heap s) given "logger" VNull)
    ∧ forall k, k <> "supportsParallelBuild" -> k <> "maxParallelJobs" ->
                k <> "cwd" -> k <> "env" -> k <> "logger" ->
                m !! k = settings (heap s) given !! k.
Proof.
  intros given s' Hsp.
  assert (Hd := make_detail_holds H arguments s).
  unfold wp, make_detail in Hd. fold s' given in Hd.
  assert (Hpost := make_post H arguments s). unfold wp in Hpost.
  fold s' in Hpost.
  destruct (spawned_inv _ _ _ _ _ _ _ _ Hpost Hsp) as [Ho _].
  assert (Hne := exit_outcome_not_early cmd (child H (heap s') cmd a op)).
  rewrite <- Ho in Hne.
  destruct Hd as (_ & [[Hb _]|[(Hb & _)
                     |(la & le & lo & reads & Ht & _ & _ & _ & _ & _
                       & Hop & _)]]).
  { rewrite Hb in Hne. by destruct Hne. }
  { rewrite Hb in Hne. by destruct Hne. }
  destruct (spawned_tail _ _ _ _ _ _ _ _ _ Hsp Ht) as (-> & -> & -> & _).
  eexists lo, _. split; [done|]. split; [exact Hop|].
  split; [|split; [|split; [|split]]].
  - rewrite defaults_other by done.
    by apply defaults_setting.
  - rewrite defaults_other by done.
    by apply defaults_setting.
  - unfold setting. apply completed_lookup; [|done].
    by apply defaults_other.
  - unfold setting. apply completed_lookup; [|done].
    by apply defaults_other.
  - intros k H1 H2 H3 H4 H5. rewrite !defaults_other; [done|..].
    + unfold make_defaults.
      by rewrite lookup_insert_ne, lookup_singleton_ne.
    + by rewrite !lookup_insert_ne, lookup_singleton_ne.
Qed.

Lemma make_options_completed_witness :
  let s' := (make sample_host [VStr "/src"; VRef 0] capped_state).2 in
  ∃ lo m,
    VRef 8%nat = VRef lo ∧ heap s' !! lo = Some (CObj m)
    ∧ m !! "supportsParallelBuild" = Some (VBool true)
    ∧ m !! "maxParallelJobs" = Some (VNum (NInt 0))
    ∧ m !! "cwd" = Some (VStr "/elsewhere")
    ∧ m !! "logger" = Some VNull
    ∧ forall k, k <> "supportsParallelBuild" -> k <> "maxParallelJobs" ->
                k <> "cwd" -> k <> "env" -> k <> "logger" ->
                m !! k = settings (heap capped_state) (VRef 0) !! k.
Proof.
  apply (make_options_completed sample_host [VStr "/src"; VRef 0]
           capped_state (VStr "make") (VRef 6%nat) (VRef 8%nat)).
  exists [EvRead "/proc/cpuinfo"]. split; reflexivity.
Defined.

(** X14: the options [patch] hands to the runner hold [patchLevel], the
    caller's or else 0, next to the runner's keys and every other key of the
    caller's options, and the command is [patch]. *)
Theorem patch_options_completed (H : host) (cwd patchFile options : value)
    (s : state) (cmd a op : value) :
  let s' := (patch H cwd patchFile options s).2 in
  spawned s s' cmd a op ->
  cmd = VStr "patch"
  ∧ ∃ lo m,
      op = VRef lo ∧ heap s' !! lo = Some (CObj m)
      ∧ m !! "patchLevel"
        = Some (setting (heap s) options "patchLevel" (VNum (NInt 0)))
      ∧ m !! "cwd" = Some (setting (heap s) options "cwd" cwd)
      ∧ m !! "logger" = Some (setting (heap s) options "logger" VNull)
      ∧ forall k, k <> "patchLevel" -> k <> "cwd" -> k <> "env" ->
                  k <> "logger" -> m !! k = settings (heap s) options !! k.
Proof.
  intros s' Hsp.
  assert (Hd := patch_detail H cwd patchFile options s).
  unfold wp in Hd. fold s' in Hd.
  destruct (spawn_detail_new _ _ _ _ _ _ _ _ _ _ _ Hd Hsp)
    as (-> & (lo & le & -> & _ & _ & _ & Hop) & _).
  split; [done|]. eexists lo, _. split; [done|]. split; [exact Hop|].
  split; [|split; [|split]].
  - rewrite defaults_other by done. by apply defaults_setting.
  - unfold setting. apply completed_lookup; [|done]. by apply defaults_other.
  - unfold setting. apply completed_lookup; [|done]. by apply defaults_other.
  - intros k H1 H2 H3 H4. rewrite !defaults_other; [done|..].
    + by rewrite lookup_singleton_ne.
    + by rewrite !lookup_insert_ne, lookup_singleton_ne.
Qed.

Lemma patch_options_completed_witness :
  let s' := (patch sample_host (VStr "/src") (VStr "fix.diff") (VRef 2)
               sample_state).2 in
  ∃ m, heap s' !! 6%nat = Some (CObj m)
       ∧ m !! "patchLevel" = Some (VNum (NInt 1))
       ∧ m !! "cwd" = Some (VStr "/src").
Proof.
  intros s'.
  destruct (patch_options_completed sample_host (VStr "/src")
              (VStr "fix.diff") (VRef 2) sample_state
              (VStr "patch") (VRef 4%nat) (VRef 6%nat))
    as (_ & lo & m & E & Hm & Hp & Hc & _);
    [exists []; split; reflexivity|].
  injection E as <-. exists m. done.
Defined.

(** X15: [configure] looks for the script under its [cwd] argument and
    runs it by that path, also when the caller's [options.cwd] names another
    directory: the child then runs in [options.cwd], but the script is the
    one found under the argument. *)
Theorem configure_script_under_cwd (H : host) (dir script : string)
    (args options : value) (s : state) (cmd a op : value) :
  let given := options_of (heap s) args options in
  let s' := (configure H (VStr dir) args options s).2 in
  first_existing H dir = Some script ->
  spawned s s' cmd a op ->
  cmd = VStr (path_join H dir script)
  ∧ ∃ lo m,
      op = VRef lo ∧ heap s' !! lo = Some (CObj m)
      ∧ m !! "cwd" = Some (setting (heap s) given "cwd" (VStr dir)).
Proof.
  intros given s' Hf Hsp.
  assert (Hd := configure_detail_holds H (VStr dir) args options s).
  unfold wp, configure_detail in Hd. fold s' given in Hd. rewrite Hf in Hd.
  destruct (spawn_detail_new _ _ _ _ _ _ _ _ _ _ _ Hd Hsp)
    as (-> & (lo & le & -> & _ & _ & _ & Hop) & _).
  split; [done|]. eexists lo, _. split; [done|]. split; [exact Hop|].
  by apply defaults_setting.
Qed.

Lemma configure_script_under_cwd_witness :
  let s' := (configure sample_host (VStr "/src") (VRef 0) VUndefined
               capped_state).2 in
  ∃ m, heap s' !! 3%nat = Some (CObj m)
       ∧ m !! "cwd" = Some (VStr "/elsewhere").
Proof.
  intros s'.
  destruct (configure_script_under_cwd sample_host "/src" "config"
              (VRef 0) VUndefined capped_state
              (VStr "/src/config") (VRef 1%nat) (VRef 3%nat))
    as (_ & lo & m & E & Hm & Hc);
    [reflexivity|exists []; split; reflexivity|].
  injection E as <-. exists m. done.
Defined.

(** ** Whole processes, and [null] options *)

Lemma exec_cache_filled H c s :
  memo s = None -> memo (exec H c s).2 <> None ->
  ∃ arguments n l,
    c = CallMake arguments ∧ core_count H = Some n
    ∧ memo (exec H c s).2 = Some (VRef l)
    ∧ cached_cores (exec H c s).2 = Some (NInt n).
Proof.
  intros Hm Hne.
  assert (Hmake : ∃ arguments, c = CallMake arguments).
  { destruct c as [cwd cmd args options|cwd args options
                  |cwd patchFile options|arguments]; [..|by eexists];
      exfalso; apply Hne; rewrite <- Hm; simpl.
    - eapply spawn_detail_quiet. apply runWithinEnvironment_detail.
    - assert (Hd := configure_detail_holds H cwd args options s).
      unfold wp, configure_detail in Hd.
      destruct cwd as [| |b|n|dir|l]; try (by destruct Hd as (_ & ? & _)).
      destruct (first_existing H dir); by destruct Hd as (_ & ? & _).
    - eapply spawn_detail_quiet. apply patch_detail. }
  destruct Hmake as [arguments ->]. exists arguments.
  destruct (exec_post H (CallMake arguments) s)
    as (_ & [E|(_ & n & l & Hn & Hl & Hc & _)] & _); [congruence|].
  exists n, l. split; [done|]. split; [done|]. split; [done|].
  unfold cached_cores. by rewrite Hl, Hc, lookup_singleton_eq.
Qed.

Lemma run_calls_cache cs s :
  memo s = None ->
  memo (run_calls cs s) = None
  ∨ ∃ H arguments c,
      (H, CallMake arguments) ∈ cs ∧ core_count H = Some c
      ∧ cached_cores (run_calls cs s) = Some (NInt c).
Proof.
  revert s. induction cs as [|[H c] cs IH]; intros s Hm; simpl; [by left|].
  destruct (memo (exec H c s).2) as [v|] eqn:Hv.
  - right.
    destruct (exec_cache_filled H c s Hm) as (arguments & n & l & -> & Hn & Hl & Hc);
      [congruence|].
    exists H, arguments, n. split; [apply elem_of_cons; by left|].
    split; [done|].
    destruct (run_calls_cached cs _ _ Hl) as (Hm' & Hp & _).
    eapply cached_cores_kept; [exact Hp|congruence|done].
  - destruct (IH _ Hv) as [?|(H' & arguments & n & Hin & Hn & Hc)];
      [by left|right].
    exists H', arguments, n. split; [|done]. apply elem_of_cons. by right.
Qed.

(** X16: the cache over a whole process.  From a process that starts with
    an empty cache, after any calls on any hosts, the cache is empty or holds
    the core count detected on the host of one of the [make] calls, an
    integer of at least 2. *)
Theorem process_cache (cs : list (host * call)) (h : list cell) :
  let s' := run_calls cs (State h None []) in
  memo s' = None
  ∨ ∃ H arguments c,
      (H, CallMake arguments) ∈ cs ∧ core_count H = Some c ∧ 2 <= c
      ∧ cached_cores s' = Some (NInt c).
Proof.
  intros s'.
  destruct (run_calls_cache cs (State h None []) eq_refl)
    as [?|(H & arguments & c & Hin & Hc & Hcc)]; [by left|right].
  exists H, arguments, c. split; [done|]. split; [done|].
  split; [by eapply core_count_floor|done].
Qed.

(** X17: [null] given as [options] counts as no options.  When [args] is
    not a plain object, each of the four functions does with [null] for
    [options] what it does with [options] left out. *)
Theorem null_options_like_omitted (H : host)
    (cwd cmd args patchFile : value) (s : state) :
  is_object (heap s) args = false ->
  valid (heap s) args = true ->
  runWithinEnvironment H cwd cmd args VNull s
  = runWithinEnvironment H cwd cmd args VUndefined s
  ∧ configure H cwd args VNull s = configure H cwd args VUndefined s
  ∧ patch H cwd patchFile VNull s = patch H cwd patchFile VUndefined s
  ∧ make H [cwd; args; VNull] s = make H [cwd; args] s.
Proof.
  intros Ho Hv.
  assert (Hr : forall o, reinterprets (heap s) args o = false).
  { intros o. unfold reinterprets. by rewrite Ho, andb_false_r. }
  assert (Hk : forall o, args_or_options args o s = (Ret (args, o), s)).
  { intros o. by apply args_or_options_keeps. }
  assert (Hrun : forall c,
    runWithinEnvironment H cwd c args VNull s
    = runWithinEnvironment H cwd c args VUndefined s).
  { intros c. unfold runWithinEnvironment. unfold_m. by rewrite !Hk. }
  split; [apply Hrun|]. split; [|split].
  - unfold configure, configure_resolved. unfold_m.
    rewrite !Hk, find_detail.
    destruct cwd as [| |b|n|dir|l]; try done.
    destruct (first_existing H dir); [apply Hrun|done].
  - done.
  - unfold make. unfold_m.
    change (param 1 [cwd; args; VNull]) with args.
    change (param 2 [cwd; args; VNull]) with VNull.
    change (param 1 [cwd; args]) with args.
    change (param 2 [cwd; args]) with VUndefined.
    by rewrite !Hk.
Qed.

Lemma null_options_like_omitted_witness :
  make sample_host [VStr "/src"; VRef 0; VNull] sample_state
  = make sample_host [VStr "/src"; VRef 0] sample_state.
Proof.
  apply (null_options_like_omitted sample_host (VStr "/src") (VStr "make")
           (VRef 0) (VStr "fix.diff") sample_state); reflexivity.
Defined.

(** X18: [runWithinEnvironment] checks nothing of its own.  Whatever [cwd]
    and [cmd] are, when the value used as options is falsy or a plain object
    the call does reach the runner: it hands [cmd] to the runner once, and its
    outcome is the runner's. *)
Theorem runWithinEnvironment_always_spawns (H : host)
    (cwd cmd args options : value) (s : state) :
  let o := (runWithinEnvironment H cwd cmd args options s).1 in
  let s' := (runWithinEnvironment H cwd cmd args options s).2 in
  valid (heap s) args = true ->
  usable (heap s) (options_of (heap s) args options) = true ->
  ∃ a op, trace s' = trace s ++ [EvSpawn cmd a op]
          ∧ o = exit_outcome cmd (child H (heap s') cmd a op).
Proof.
  intros o s' Hv Hu. subst o s'.
  unfold runWithinEnvironment, options_of in *. unfold_m.
  destruct (reinterprets (heap s) args options) eqn:Hr.
  - rewrite (args_or_options_fires _ _ _ Hr).
    rewrite run_resolved_eq by (by apply usable_snoc).
    simpl. unfold logExec, log, set_heap. simpl. eauto.
  - rewrite (args_or_options_keeps _ _ _ Hr Hv).
    rewrite run_resolved_eq by done.
    destruct (nullish args); unfold logExec, log, set_heap; simpl; eauto.
Qed.

Lemma runWithinEnvironment_always_spawns_witness :
  let r := runWithinEnvironment sample_host VUndefined (VStr "make")
             (VStr "all") VNull sample_state in
  ∃ a op, trace r.2 = [EvSpawn (VStr "make") a op]
          ∧ r.1 = exit_outcome (VStr "make")
                    (child sample_host (heap r.2) (VStr "make") a op).
Proof.
  apply (runWithinEnvironment_always_spawns sample_host VUndefined
           (VStr "make") (VStr "all") VNull sample_state); reflexivity.
Defined.

Lemma make_reaches_runner_witness :
  ∃ a op,
    spawned sample_state
      (make sample_host [VStr "/src"; VRef 0; VRef 2] sample_state).2
      (VStr "make") a op.
Proof.
  apply (make_reaches_runner sample_host [VStr "/src"; VRef 0; VRef 2]
           sample_state 3 "1");
    [reflexivity|reflexivity|by right|by left|reflexivity|reflexivity].
Defined.

(** ** The reads of a whole process *)

Lemma cpuinfo_reads_snoc tr cmd a op :
  cpuinfo_reads (tr ++ [EvSpawn cmd a op]) = cpuinfo_reads tr.
Proof.
  apply (cpuinfo_reads_spawn tr [EvSpawn cmd a op] (@Beyond value)).
  right. eauto.
Qed.

Lemma quiet_reads s s' :
  quiet s s' ->
  memo s' = memo s ∧ cpuinfo_reads (trace s') = cpuinfo_reads (trace s).
Proof.
  intros [Hm [->|(cmd & a & op & ->)]]; split; try done.
  apply cpuinfo_reads_snoc.
Qed.

Lemma exec_quiet H c s :
  (forall arguments, c <> CallMake arguments) -> quiet s (exec H c s).2.
Proof.
  intros Hc.
  destruct c as [cwd cmd args options|cwd args options
                |cwd patchFile options|arguments]; simpl.
  - eapply spawn_detail_quiet. apply runWithinEnvironment_detail.
  - assert (Hd := configure_detail_holds H cwd args options s).
    unfold wp, configure_detail in Hd.
    destruct cwd as [| |b|n|dir|l];
      try (destruct Hd as (_ & Hm & Ht & _); split; [done|by left]).
    destruct (first_existing H dir).
    + by eapply spawn_detail_quiet.
    + destruct Hd as (_ & Hm & Ht & _). split; [done|by left].
  - eapply spawn_detail_quiet. apply patch_detail.
  - by destruct (Hc arguments).
Qed.

Lemma cpuinfo_reads_one H tr :
  (cpuinfo_reads (tr ++ detection_reads H) <= cpuinfo_reads tr + 1)%nat.
Proof.
  unfold cpuinfo_reads, detection_reads. rewrite filter_app, length_app.
  destruct (isPlatform H "linux"); simpl; lia.
Qed.

(** [make] on a host whose file cannot be read, with an empty cache: the
    call does not come to the detection, or it ends in the error of the
    read. *)
Lemma make_unreadable H arguments s :
  memo s = None -> core_count H = None ->
  wp (make H arguments)
     (fun o s' =>
        (memo s' = memo s
         ∧ cpuinfo_reads (trace s') = cpuinfo_reads (trace s))
        ∨ (read_failed o = true
           ∧ (cpuinfo_reads (trace s') <= cpuinfo_reads (trace s) + 1)%nat))
     s.
Proof.
  intros Hm Hc.
  set (args := param 1 arguments). set (options := param 2 arguments).
  destruct (truthy (setting (heap s) (options_of (heap s) args options)
                      "supportsParallelBuild" (VBool true))) eqn:Hsp.
  - assert (Hfail : forall n cwd a o s1,
      memo s1 = None -> trace s1 = trace s ->
      usable (heap s1) o = true ->
      truthy (setting (heap s1) o "supportsParallelBuild" (VBool true))
      = true ->
      wp (make_resolved H n cwd a o)
         (fun o s' =>
            (memo s' = memo s
             ∧ cpuinfo_reads (trace s') = cpuinfo_reads (trace s))
            ∨ (read_failed o = true
               ∧ (cpuinfo_reads (trace s')
                  <= cpuinfo_reads (trace s) + 1)%nat)) s1).
    { intros n cwd a o s1 Hm1 Ht1 Hu1 Hsp1.
      eapply wp_mono; [by apply make_resolved_fails|].
      intros o' s' (-> & _ & Ht). right. split; [done|].
      rewrite Ht, Ht1. apply cpuinfo_reads_one. }
    unfold make. fold args options. apply wp_bind.
    unfold options_of in Hsp.
    destruct (args_or_options_cases args options s)
      as [[Hr E]|[[Hr E]|E]]; (eapply wp_run; [exact E|]);
      rewrite ?Hr in Hsp.
    + assert (Ho : is_object (heap s) args = true).
      { unfold reinterprets in Hr. by apply andb_true_iff in Hr as [_ ?]. }
      assert (Hu : usable (heap s) args = true).
      { by destruct args. }
      apply Hfail; simpl; [done|done|by apply usable_snoc|].
      unfold setting. by rewrite settings_snoc.
    + destruct (usable (heap s) options) eqn:Hu.
      * by apply Hfail.
      * unfold make_resolved. apply wp_bind.
        eapply wp_run; [by apply opts_beyond|]. by left.
    + by left.
  - assert (Hd := make_detail_holds H arguments s).
    unfold wp, make_detail in *. fold args options in Hd.
    rewrite parallel_setting, Hsp in Hd.
    destruct Hd as (_ & [[_ Hq]|[(_ & ? & _)
                       |(la & le & lo & reads & Ht & _ & _ & _ & _ & _ & _
                         & -> & Hm')]]); [|done|].
    + destruct (Hq eq_refl) as [Hm' Ht]. left. by rewrite Hm', Ht.
    + left. split; [done|]. rewrite Ht. apply cpuinfo_reads_snoc.
Qed.

Lemma exec_reads_step H c s :
  let o := (exec H c s).1 in
  let s' := (exec H c s).2 in
  (memo s' = memo s ∧ cpuinfo_reads (trace s') = cpuinfo_reads (trace s))
  ∨ (memo s = None ∧ memo s' <> None
     ∧ (cpuinfo_reads (trace s') <= cpuinfo_reads (trace s) + 1)%nat)
  ∨ (read_failed o = true
     ∧ (cpuinfo_reads (trace s') <= cpuinfo_reads (trace s) + 1)%nat).
Proof.
  intros o s'. subst o s'.
  destruct (readable H) eqn:Hre.
  { destruct (exec_reads_once H c s Hre) as [?|?]; [by left|right; by left]. }
  destruct (memo s) as [v|] eqn:Hm.
  { destruct (exec_cached H c s v Hm) as (Hm' & _ & Hr).
    left. split; [congruence|done]. }
  assert (Hc : core_count H = None).
  { unfold readable in Hre. by destruct (core_count H). }
  destruct c as [cwd cmd args options|cwd args options
                |cwd patchFile options|arguments].
  4: { destruct (make_unreadable H arguments s Hm Hc) as [[E1 E2]|?];
         [left|right; by right].
       split; [|done]. simpl. congruence. }
  all: left; rewrite <- Hm; apply quiet_reads, exec_quiet; done.
Qed.

Lemma run_calls_reads_bound cs s :
  (cpuinfo_reads (trace (run_calls cs s))
   <= cpuinfo_reads (trace s) + failed_detections cs s + 1)%nat.
Proof.
  revert s. induction cs as [|[H c] cs IH]; intros s; simpl; [lia|].
  specialize (IH (exec H c s).2).
  destruct (exec_reads_step H c s) as [[_ Hr]|[(_ & Hm & Hr)|[Hf Hr]]].
  - lia.
  - destruct (memo (exec H c s).2) as [v|] eqn:E; [|done].
    destruct (run_calls_cached cs _ v E) as (_ & _ & Hr2). lia.
  - rewrite Hf. lia.
Qed.

(** C8, amended: a detection that has returned is cached for the rest of
    the process, and one that throws is not.  Once a detection has returned,
    after any further calls of the module, on hosts that may differ from the
    first one, a detection returns the identical value and leaves the state
    as it is, so nothing is computed or read again, and the cached core count
    is the same.  Over any process the CPU information file is read at most
    once for each call that ended in the error of a read, and once more; so
    over a process whose hosts can all be asked for their core count it is
    read at most once. *)
Theorem host_information_memoized (H1 H2 : host) (s s1 : state) (v : value)
    (cs process : list (host * call)) (s0 : state) :
  _machineInformation H1 s = (Ret v, s1) ->
  let s2 := run_calls cs s1 in
  _machineInformation H2 s2 = (Ret v, s2)
  ∧ (forall k, cached_cores s1 = Some k -> cached_cores s2 = Some k)
  ∧ cpuinfo_reads (trace s2) = cpuinfo_reads (trace s1)
  ∧ (cpuinfo_reads (trace (run_calls process s0))
     <= cpuinfo_reads (trace s0) + failed_detections process s0 + 1)%nat
  ∧ (all_readable process = true ->
     (cpuinfo_reads (trace (run_calls process s0))
      <= cpuinfo_reads (trace s0) + 1)%nat).
Proof.
  intros E s2.
  destruct (machineInformation_returns _ _ _ _ E) as [Hm Hr].
  destruct (run_calls_cached cs s1 v Hm) as (Hm2 & Hp2 & Hr2).
  fold s2 in Hm2, Hp2, Hr2.
  split; [by apply machineInformation_cached|].
  split; [|split; [done|split]].
  - intros k Hk. eapply cached_cores_kept; [done|congruence|done].
  - apply run_calls_reads_bound.
  - apply run_calls_reads_once.
Qed.

Lemma host_information_memoized_witness :
  let process :=
    [(sample_host, CallMake [VStr "/src"; VRef 0; VRef 2]);
     (other_host, CallMake [VStr "/src"]);
     (sample_host, CallPatch (VStr "/src") (VStr "fix.patch") VNull)] in
  let s1 := (_machineInformation sample_host sample_state).2 in
  let s2 := run_calls process s1 in
  _machineInformation other_host s2 = (Ret (VRef 3%nat), s2)
  ∧ (forall k, cached_cores s1 = Some k -> cached_cores s2 = Some k)
  ∧ cpuinfo_reads (trace s2) = cpuinfo_reads (trace s1)
  ∧ (cpuinfo_reads (trace (run_calls process sample_state))
     <= cpuinfo_reads (trace sample_state)
        + failed_detections process sample_state + 1)%nat
  ∧ (cpuinfo_reads (trace (run_calls process sample_state))
     <= cpuinfo_reads (trace sample_state) + 1)%nat.
Proof.
  intros process s1 s2.
  destruct (host_information_memoized sample_host other_host sample_state
              s1 (VRef 3%nat) process process sample_state eq_refl)
    as (A & B & C & D & E).
  split; [exact A|]. split; [exact B|]. split; [exact C|].
  split; [exact D|exact (E eq_refl)].
Defined.

(** C8 as the claim states it fails on a host whose [/proc/cpuinfo] cannot
    be read: a detection that throws leaves the cache empty, so the next
    [make] runs it again.  Two calls of [make] on such a host and one on the
    sample host read the file three times. *)
Lemma failed_detection_read_again :
  let process :=
    [(unreadable_host, CallMake [VStr "/src"]);
     (unreadable_host, CallMake [VStr "/src"]);
     (sample_host, CallMake [VStr "/src"])] in
  cpuinfo_reads (trace (run_calls process sample_state)) = 3%nat
  ∧ failed_detections process sample_state = 2%nat
  ∧ ¬ (cpuinfo_reads (trace (run_calls process sample_state))
       <= cpuinfo_reads (trace sample_state) + 1)%nat.
Proof.
  intros process.
  assert (E : cpuinfo_reads (trace (run_calls process sample_state))
              = 3%nat) by reflexivity.
  split; [exact E|]. split; [reflexivity|]. rewrite E. simpl. lia.
Qed.
